(** * Simulated annealing: the [OptimizationProblem] and [SimulatedAnnealing]
    classes of [metaheuristics], embedded as state-passing functions.

    Numbers (objective values, temperatures, random draws) are the reals;
    [np.exp] is [exp].  Python objects are dynamically typed, so the
    candidate values that flow through the two classes are modelled by the
    type [pyobj]: a method call on an object that has no such attribute
    raises [AttributeError], as it does in Python.  Every call may raise;
    a raised exception stops the method and reaches the caller with the
    store as it was at that moment. *)

From Stdlib Require Import Reals Lra ZArith Lia List Bool.
Import ListNotations.

Open Scope R_scope.

(** ** Exceptions and results *)

Inductive exn : Type :=
| AttributeError
| ZeroDivisionError
| IndexError
| TypeError
| CallerError (code : nat).

Inductive result (A : Type) : Type :=
| Ok (a : A)
| Raise (e : exn).

Arguments Ok {A} a.
Arguments Raise {A} e.

Definition is_ok {A : Type} (r : result A) : bool :=
  match r with
  | Ok _ => true
  | Raise _ => false
  end.

(** ** Python objects *)

Section Objects.

Variable V : Type.

(** Modelled from the spec: the [OptimizationSolution] class
    ([metaheuristics/tools/optimization_solution.py]) is a pair of a
    candidate value and its objective value with one read accessor for each
    field, [get_solution_value] and [get_objective_value], and no
    mutator.  An object is either a plain candidate value of the caller's
    representation [V] (a number, a tuple, a list...), which has no such
    accessors, or an instance of [OptimizationSolution]. *)
Inductive pyobj : Type :=
| Plain (v : V)
| Instance (s : OptimizationSolution)
with OptimizationSolution : Type :=
| MkOptimizationSolution (solution_value : pyobj) (objective_value : R).

Definition get_solution_value (s : OptimizationSolution) : pyobj :=
  match s with
  | MkOptimizationSolution v _ => v
  end.

Definition get_objective_value (s : OptimizationSolution) : R :=
  match s with
  | MkOptimizationSolution _ o => o
  end.

(** [o.get_objective_value()] on an arbitrary object. *)
Definition call_get_objective_value (o : pyobj) : result R :=
  match o with
  | Instance s => Ok (get_objective_value s)
  | Plain _ => Raise AttributeError
  end.

End Objects.

Arguments Plain {V} v.
Arguments Instance {V} s.
Arguments MkOptimizationSolution {V} solution_value objective_value.
Arguments get_solution_value {V} s.
Arguments get_objective_value {V} s.
Arguments call_get_objective_value {V} o.

(** ** The temperature schedule

    [TempParams] is not defined in these two modules; the annealer only
    calls [get_current_temp] and [update_temp] on it. *)

Class TempParams (T : Type) : Type := {
  get_current_temp : T -> result R;
  update_temp : T -> result T
}.

(** ** Python arithmetic and list assignment *)

Definition Rltb (x y : R) : bool := if Rlt_dec x y then true else false.
Definition Rleb (x y : R) : bool := if Rle_dec x y then true else false.
Definition Reqb (x y : R) : bool := if Req_dec_T x y then true else false.

(** [a / b] raises [ZeroDivisionError] when [b] is zero. *)
Definition py_div (a b : R) : result R :=
  if Reqb b 0 then Raise ZeroDivisionError else Ok (a / b).

Fixpoint set_nth {A : Type} (l : list A) (n : nat) (x : A) : list A :=
  match l, n with
  | [], _ => []
  | _ :: t, O => x :: t
  | h :: t, S m => h :: set_nth t m x
  end.

(** [l[i] = x]: a negative index counts from the end, an index outside
    [-len(l) .. len(l)-1] raises [IndexError]. *)
Definition py_setitem {A : Type} (l : list A) (i : Z) (x : A)
  : result (list A) :=
  let len := Z.of_nat (length l) in
  if ((0 <=? i) && (i <? len))%Z then Ok (set_nth l (Z.to_nat i) x)
  else if ((- len <=? i) && (i <? 0))%Z
       then Ok (set_nth l (Z.to_nat (len + i)) x)
       else Raise IndexError.

(** ** State and exceptions

    A method is a function from the state it may touch to its result and the
    state it leaves. *)

Definition ST (S A : Type) : Type := S -> result A * S.

Definition ret {S A : Type} (a : A) : ST S A := fun s => (Ok a, s).

Definition bind {S A B : Type} (m : ST S A) (k : A -> ST S B) : ST S B :=
  fun s =>
    match m s with
    | (Ok a, s') => k a s'
    | (Raise e, s') => (Raise e, s')
    end.

Definition lift {S A : Type} (r : result A) : ST S A := fun s => (r, s).

Notation "x <- m ;; k" := (bind m (fun x => k))
  (at level 61, m at next level, right associativity).
Notation "m ;;; k" := (bind m (fun _ => k))
  (at level 61, right associativity).

(** [for _ in range(n): body] *)
Fixpoint for_range {S : Type} (n : nat) (body : ST S unit) : ST S unit :=
  match n with
  | O => ret tt
  | S m => body ;;; for_range m body
  end.

(** ** The two classes *)

Section Annealing.

Variable V : Type.
Variable T : Type.
Context {schedule : TempParams T}.

Local Abbreviation obj := (pyobj V).
Local Abbreviation solution := (OptimizationSolution V).

(** What a run does to its collaborators, newest first. *)
Inductive event : Type :=
| CallObjective (x : obj)
| CallUpdater (x : obj)
| CallIteration (i : Z)
| CallRand
| CallGetTemp
| CallUpdateTemp
| StoreTemps (i : Z)
| StoreSolutions (i : Z).

Definition trace : Type := list event.

(** *** [OptimizationProblem] *)

Record OptimizationProblem : Type := {
  _objective_function : obj -> result R;
  _solution_updater : obj -> result obj;
  _current_solution : solution
}.

(** A method of the problem sees the problem object and the trace. *)
Record problem_store : Type := {
  this : OptimizationProblem;
  calls : trace
}.

Definition P (A : Type) : Type := ST problem_store A.

(** [self.<field>] *)
Definition attr {A : Type} (field : OptimizationProblem -> A) : P A :=
  fun s => (Ok (field (this s)), s).

(** [self._current_solution = s] *)
Definition set_current_solution (s : solution) : P unit :=
  fun ps =>
    (Ok tt,
     {| this := {| _objective_function := _objective_function (this ps);
                   _solution_updater := _solution_updater (this ps);
                   _current_solution := s |};
        calls := calls ps |}).

(** A call of the caller's objective function. *)
Definition call_objective (f : obj -> result R) (x : obj) : P R :=
  fun ps => (f x, {| this := this ps; calls := CallObjective x :: calls ps |}).

(** A call of the caller's neighbour function. *)
Definition call_updater (f : obj -> result obj) (x : obj) : P obj :=
  fun ps => (f x, {| this := this ps; calls := CallUpdater x :: calls ps |}).

(** [OptimizationProblem(initial_solution_value, objective_function,
    solution_updater)]: the object exists once [__init__] has returned. *)
Definition OptimizationProblem_init (initial_solution_value : obj)
    (objective_function : obj -> result R)
    (solution_updater : obj -> result obj) : ST trace OptimizationProblem :=
  fun l =>
    (match objective_function initial_solution_value with
     | Ok o =>
         Ok {| _objective_function := objective_function;
               _solution_updater := solution_updater;
               _current_solution :=
                 MkOptimizationSolution initial_solution_value o |}
     | Raise e => Raise e
     end,
     CallObjective initial_solution_value :: l).

Definition get_current_solution : P obj :=
  s <- attr _current_solution ;;
  ret (get_solution_value s).

Definition get_objective_function : P (obj -> result R) :=
  attr _objective_function.

Definition get_current_objective_value : P R :=
  s <- attr _current_solution ;;
  ret (get_objective_value s).

Definition find_neighbour_solution : P solution :=
  s <- attr _current_solution ;;
  let curr_solution_val := get_solution_value s in
  u <- attr _solution_updater ;;
  new_solution_val <- call_updater u curr_solution_val ;;
  f <- attr _objective_function ;;
  o <- call_objective f new_solution_val ;;
  ret (MkOptimizationSolution new_solution_val o).

Definition update_current_solution (new_solution_val : obj) : P unit :=
  f <- get_objective_function ;;
  o <- call_objective f new_solution_val ;;
  set_current_solution (MkOptimizationSolution new_solution_val o).

(** *** [SimulatedAnnealing] *)

Record SimulatedAnnealing : Type := {
  _temp_params : T;
  _iteration_function : Z -> result Z;
  _problem : OptimizationProblem
}.

(** The objects a call of the annealer can reach: the annealer with its
    schedule and problem, the caller's two history lists, the generator
    behind [np.random.rand] (the draws it will give and how many were
    taken) and the trace of calls. *)
Record store : Type := {
  self : SimulatedAnnealing;
  temps : list R;
  solutions : list obj;
  rand_stream : nat -> R;
  rand_pos : nat;
  log : trace
}.

Definition M (A : Type) : Type := ST store A.

Definition with_log (st : store) (l : trace) : store :=
  {| self := self st; temps := temps st; solutions := solutions st;
     rand_stream := rand_stream st; rand_pos := rand_pos st; log := l |}.

Definition with_problem (st : store) (p : OptimizationProblem) : store :=
  {| self := {| _temp_params := _temp_params (self st);
                _iteration_function := _iteration_function (self st);
                _problem := p |};
     temps := temps st; solutions := solutions st;
     rand_stream := rand_stream st; rand_pos := rand_pos st; log := log st |}.

Definition with_temp_params (st : store) (t : T) : store :=
  {| self := {| _temp_params := t;
                _iteration_function := _iteration_function (self st);
                _problem := _problem (self st) |};
     temps := temps st; solutions := solutions st;
     rand_stream := rand_stream st; rand_pos := rand_pos st; log := log st |}.

Definition with_temps (st : store) (l : list R) : store :=
  {| self := self st; temps := l; solutions := solutions st;
     rand_stream := rand_stream st; rand_pos := rand_pos st; log := log st |}.

Definition with_solutions (st : store) (l : list obj) : store :=
  {| self := self st; temps := temps st; solutions := l;
     rand_stream := rand_stream st; rand_pos := rand_pos st; log := log st |}.

Definition with_rand_pos (st : store) (n : nat) : store :=
  {| self := self st; temps := temps st; solutions := solutions st;
     rand_stream := rand_stream st; rand_pos := n; log := log st |}.

Definition emit (e : event) (st : store) : store :=
  with_log st (e :: log st).

(** [self._problem.<method>(...)] *)
Definition on_problem {A : Type} (m : P A) : M A :=
  fun st =>
    let (r, ps) := m {| this := _problem (self st); calls := log st |} in
    (r, with_log (with_problem st (this ps)) (calls ps)).

(** [self._temp_params.get_current_temp()] *)
Definition temp_get_current_temp : M R :=
  fun st => (get_current_temp (_temp_params (self st)), emit CallGetTemp st).

(** [self._temp_params.update_temp()] *)
Definition temp_update_temp : M unit :=
  fun st =>
    match update_temp (_temp_params (self st)) with
    | Ok t => (Ok tt, emit CallUpdateTemp (with_temp_params st t))
    | Raise e => (Raise e, emit CallUpdateTemp st)
    end.

(** [self._iteration_function(i)] *)
Definition call_iteration_function (i : Z) : M Z :=
  fun st => (_iteration_function (self st) i, emit (CallIteration i) st).

(** [np.random.rand()] *)
Definition np_random_rand : M R :=
  fun st =>
    (Ok (rand_stream st (rand_pos st)),
     emit CallRand (with_rand_pos st (S (rand_pos st)))).

(** [temps[i] = x] *)
Definition temps_setitem (i : Z) (x : R) : M unit :=
  fun st =>
    match py_setitem (temps st) i x with
    | Ok l => (Ok tt, emit (StoreTemps i) (with_temps st l))
    | Raise e => (Raise e, st)
    end.

(** [solutions[i] = x] *)
Definition solutions_setitem (i : Z) (x : obj) : M unit :=
  fun st =>
    match py_setitem (solutions st) i x with
    | Ok l => (Ok tt, emit (StoreSolutions i) (with_solutions st l))
    | Raise e => (Raise e, st)
    end.

Definition annealing_function (old_value new_value : R) : M R :=
  t <- temp_get_current_temp ;;
  if Reqb t 0 then ret 0
  else
    t' <- temp_get_current_temp ;;
    exponent <- lift (py_div (new_value - old_value) t') ;;
    lift (py_div 1 (exp exponent)).

Definition should_change_solution (old_value new_value : R) : M bool :=
  if Rltb new_value old_value then ret true
  else
    random_number <- np_random_rand ;;
    annealing_value <- annealing_function old_value new_value ;;
    ret (Rleb random_number annealing_value).

Definition run_annealing_step : M obj :=
  curr_solution <- on_problem get_current_solution ;;
  new_solution <- on_problem find_neighbour_solution ;;
  old_value <- lift (call_get_objective_value curr_solution) ;;
  b <- should_change_solution old_value (get_objective_value new_solution) ;;
  if b then ret (Instance new_solution) else ret curr_solution.

Definition perform_annealing_iteration (iter_count : Z) : M unit :=
  k <- call_iteration_function iter_count ;;
  for_range (Z.to_nat k)
    (new_solution <- run_annealing_step ;;
     on_problem (update_current_solution new_solution)) ;;;
  t <- temp_get_current_temp ;;
  temps_setitem iter_count t ;;;
  s <- on_problem get_current_solution ;;
  solutions_setitem iter_count s ;;;
  temp_update_temp.

(** [SimulatedAnnealing(temp_params, iteration_function, problem)] *)
Definition SimulatedAnnealing_init (temp_params : T)
    (iteration_function : Z -> result Z) (problem : OptimizationProblem)
  : SimulatedAnnealing :=
  {| _temp_params := temp_params;
     _iteration_function := iteration_function;
     _problem := problem |}.

Definition get_temp_params : M T :=
  fun st => (Ok (_temp_params (self st)), st).

Definition get_iteration_function : M (Z -> result Z) :=
  fun st => (Ok (_iteration_function (self st)), st).

Definition get_optimization_problem : M OptimizationProblem :=
  fun st => (Ok (_problem (self st)), st).

(** The body of the loop of [perform_annealing_iteration]. *)
Definition inner_step : M unit :=
  new_solution <- run_annealing_step ;;
  on_problem (update_current_solution new_solution).

(** The three statements of [perform_annealing_iteration] after its loop. *)
Definition record_and_advance (iter_count : Z) : M unit :=
  t <- temp_get_current_temp ;;
  temps_setitem iter_count t ;;;
  s <- on_problem get_current_solution ;;
  solutions_setitem iter_count s ;;;
  temp_update_temp.

(** *** Consistency, reachable states and trace counts *)

(** The objective value kept with the current solution is the objective
    function at the current value. *)
Definition consistent (p : OptimizationProblem) : Prop :=
  _objective_function p (get_solution_value (_current_solution p))
  = Ok (get_objective_value (_current_solution p)).

(** The states a problem object goes through: built by the constructor,
    then changed by [update_current_solution], its only mutator. *)
Inductive problem_state : OptimizationProblem -> Prop :=
| state_init x f u l p l' :
    OptimizationProblem_init x f u l = (Ok p, l') -> problem_state p
| state_update ps x ps' :
    problem_state (this ps) ->
    update_current_solution x ps = (Ok tt, ps') -> problem_state (this ps').

Definition is_objective_call (e : event) : bool :=
  match e with
  | CallObjective _ => true
  | _ => false
  end.

Definition is_rand_call (e : event) : bool :=
  match e with
  | CallRand => true
  | _ => false
  end.

Definition is_temp_read (e : event) : bool :=
  match e with
  | CallGetTemp => true
  | _ => false
  end.

Definition is_temp_update (e : event) : bool :=
  match e with
  | CallUpdateTemp => true
  | _ => false
  end.

Definition count (f : event -> bool) (l : trace) : nat :=
  length (filter f l).

End Annealing.

Arguments CallObjective {V} x.
Arguments CallUpdater {V} x.
Arguments CallIteration {V} i.
Arguments CallRand {V}.
Arguments CallGetTemp {V}.
Arguments CallUpdateTemp {V}.
Arguments StoreTemps {V} i.
Arguments StoreSolutions {V} i.
Arguments _objective_function {V} _.
Arguments _solution_updater {V} _.
Arguments _current_solution {V} _.
Arguments Build_OptimizationProblem {V} _ _ _.
Arguments this {V} _.
Arguments calls {V} _.
Arguments Build_problem_store {V} _ _.
Arguments attr {V A} field _.
Arguments set_current_solution {V} s _.
Arguments call_objective {V} f x _.
Arguments call_updater {V} f x _.
Arguments OptimizationProblem_init {V} _ _ _ _.
Arguments get_current_solution {V} _.
Arguments get_objective_function {V} _.
Arguments get_current_objective_value {V} _.
Arguments find_neighbour_solution {V} _.
Arguments update_current_solution {V} new_solution_val _.
Arguments _temp_params {V T} _.
Arguments _iteration_function {V T} _.
Arguments _problem {V T} _.
Arguments Build_SimulatedAnnealing {V T} _ _ _.
Arguments self {V T} _.
Arguments temps {V T} _.
Arguments solutions {V T} _.
Arguments rand_stream {V T} _ _.
Arguments rand_pos {V T} _.
Arguments log {V T} _.
Arguments Build_store {V T} _ _ _ _ _ _.
Arguments with_log {V T} st l.
Arguments with_problem {V T} st p.
Arguments with_temp_params {V T} st t.
Arguments with_temps {V T} st l.
Arguments with_solutions {V T} st l.
Arguments with_rand_pos {V T} st n.
Arguments emit {V T} e st.
Arguments on_problem {V T A} m _.
Arguments temp_get_current_temp {V T schedule} _.
Arguments temp_update_temp {V T schedule} _.
Arguments call_iteration_function {V T} i _.
Arguments np_random_rand {V T} _.
Arguments temps_setitem {V T} i x _.
Arguments solutions_setitem {V T} i x _.
Arguments annealing_function {V T schedule} old_value new_value _.
Arguments should_change_solution {V T schedule} old_value new_value _.
Arguments run_annealing_step {V T schedule} _.
Arguments perform_annealing_iteration {V T schedule} iter_count _.
Arguments SimulatedAnnealing_init {V T} _ _ _.
Arguments get_temp_params {V T} _.
Arguments get_iteration_function {V T} _.
Arguments get_optimization_problem {V T} _.
Arguments inner_step {V T schedule} _.
Arguments record_and_advance {V T schedule} iter_count _.
Arguments consistent {V} p.
Arguments problem_state {V} _.
Arguments is_objective_call {V} e.
Arguments is_rand_call {V} e.
Arguments is_temp_read {V} e.
Arguments is_temp_update {V} e.
Arguments count {V} f l.

(** ** A concrete run

    Candidates are integers, the objective is [lambda x: x * x], the
    neighbour of [x] is [x + 1]; both raise [TypeError] when handed an
    [OptimizationSolution] instead of a number.  The schedule keeps one
    temperature and halves it. *)

Module Demo.

Definition square (x : pyobj Z) : result R :=
  match x with
  | Plain z => Ok (IZR (z * z))
  | Instance _ => Raise TypeError
  end.

Definition successor (x : pyobj Z) : result (pyobj Z) :=
  match x with
  | Plain z => Ok (Plain (z + 1)%Z)
  | Instance _ => Raise TypeError
  end.

#[export] Instance halving : TempParams R := {
  get_current_temp t := Ok t;
  update_temp t := Ok (t / 2)
}.

(** A schedule whose temperature cannot be read. *)
Inductive broken : Type := Broken.

#[export] Instance broken_schedule : TempParams broken := {
  get_current_temp _ := Raise (CallerError 0);
  update_temp _ := Raise (CallerError 1)
}.

(** [OptimizationProblem(5, square, successor)] *)
Definition problem5 : OptimizationProblem Z :=
  {| _objective_function := square;
     _solution_updater := successor;
     _current_solution := MkOptimizationSolution (Plain 5%Z) 25 |}.

(** An annealer on [problem5] at temperature [t] doing [k] steps per
    iteration, two history lists of length four, every draw equal to
    [d]. *)
Definition start (t : R) (k : Z) (d : R) : store Z R :=
  {| self := {| _temp_params := t;
                _iteration_function := fun _ => Ok k;
                _problem := problem5 |};
     temps := [0; 0; 0; 0];
     solutions := [Plain 0%Z; Plain 0%Z; Plain 0%Z; Plain 0%Z];
     rand_stream := fun _ => d;
     rand_pos := 0;
     log := [] |}.

Definition start_broken : store Z broken :=
  {| self := {| _temp_params := Broken;
                _iteration_function := fun _ => Ok 1%Z;
                _problem := problem5 |};
     temps := [];
     solutions := [];
     rand_stream := fun _ => 0;
     rand_pos := 0;
     log := [] |}.

(** Callables written for solution objects: the objective of an object is
    the objective value it carries, its neighbour carries that value
    shifted by [c]. *)
Definition carried (x : pyobj Z) : result R :=
  match x with
  | Plain z => Ok (IZR z)
  | Instance s => Ok (get_objective_value s)
  end.

Definition shifted (c : R) (x : pyobj Z) : result (pyobj Z) :=
  match x with
  | Plain z => Ok (Plain z)
  | Instance s =>
      Ok (Instance
            (MkOptimizationSolution (get_solution_value s)
               (get_objective_value s + c)))
  end.

Definition five : OptimizationSolution Z :=
  MkOptimizationSolution (Plain 5%Z) 25.

(** A problem whose current value is the solution object [five]. *)
Definition problem_on_object (f : pyobj Z -> result R)
    (u : pyobj Z -> result (pyobj Z)) : OptimizationProblem Z :=
  {| _objective_function := f;
     _solution_updater := u;
     _current_solution := MkOptimizationSolution (Instance five) 25 |}.

(** As [start], on the problem [p]. *)
Definition start_on (p : OptimizationProblem Z) (t : R) (k : Z) (d : R)
  : store Z R :=
  {| self := {| _temp_params := t;
                _iteration_function := fun _ => Ok k;
                _problem := p |};
     temps := [0; 0; 0; 0];
     solutions := [Plain 0%Z; Plain 0%Z; Plain 0%Z; Plain 0%Z];
     rand_stream := fun _ => d;
     rand_pos := 0;
     log := [] |}.

(** An annealer on [problem5] with no step to run, whose [solutions] list
    is shorter than its [temps] list. *)
Definition start_uneven : store Z R :=
  {| self := {| _temp_params := 1;
                _iteration_function := fun _ => Ok 0%Z;
                _problem := problem5 |};
     temps := [0; 0];
     solutions := [Plain 0%Z];
     rand_stream := fun _ => 0;
     rand_pos := 0;
     log := [] |}.

End Demo.

(** ** Frames

    [preserves f m]: running [m] leaves the component [f] of the state as it
    was, whether [m] returns or raises. *)

Definition preserves {S X A : Type} (f : S -> X) (m : ST S A) : Prop :=
  forall s, f (snd (m s)) = f s.

(** What [run_annealing_step] has no business changing: the schedule, the
    iteration function and the history lists. *)
Definition outside_step {V T : Type} (st : store V T)
  : T * (Z -> result Z) * list R * list (pyobj V) * (nat -> R) :=
  (_temp_params (self st), _iteration_function (self st), temps st,
   solutions st, rand_stream st).

Definition problem_of {V T : Type} (st : store V T) : OptimizationProblem V :=
  _problem (self st).

Definition temp_updates {V T : Type} (st : store V T) : nat :=
  count is_temp_update (log st).

(** [maintains I m]: a state satisfying [I] still does after [m], whether
    [m] returns or raises. *)
Definition maintains {S A : Type} (I : S -> Prop) (m : ST S A) : Prop :=
  forall s, I s -> I (snd (m s)).

(** [grows_by f n m]: running [m] raises the counter [f] by at most [n] and
    never lowers it. *)
Definition grows_by {S A : Type} (f : S -> nat) (n : nat) (m : ST S A)
  : Prop :=
  forall s, (f s <= f (snd (m s)) <= f s + n)%nat.

Definition buffer_sizes {V T : Type} (st : store V T) : nat * nat :=
  (length (temps st), length (solutions st)).

(** The callables an annealer was given. *)
Definition callables {V T : Type} (st : store V T)
  : (pyobj V -> result R) * (pyobj V -> result (pyobj V)) * (Z -> result Z) :=
  (_objective_function (_problem (self st)),
   _solution_updater (_problem (self st)),
   _iteration_function (self st)).

(** * Properties *)

(** ** Comparisons *)

Lemma Rltb_true (x y : R) : x < y -> Rltb x y = true.
Proof.
  intros H. unfold Rltb.
  destruct (Rlt_dec x y); [reflexivity | contradiction].
Qed.

Lemma Rltb_false (x y : R) : ~ x < y -> Rltb x y = false.
Proof.
  intros H. unfold Rltb.
  destruct (Rlt_dec x y); [contradiction | reflexivity].
Qed.

Lemma Rleb_true_iff (x y : R) : Rleb x y = true <-> x <= y.
Proof.
  unfold Rleb. destruct (Rle_dec x y); split; intros H;
    try reflexivity; try assumption; try discriminate; contradiction.
Qed.

Lemma Rleb_false_iff (x y : R) : Rleb x y = false <-> y < x.
Proof.
  unfold Rleb. destruct (Rle_dec x y); split; intros H;
    try reflexivity; try discriminate; lra.
Qed.

Lemma Reqb_true (x y : R) : x = y -> Reqb x y = true.
Proof.
  intros H. unfold Reqb.
  destruct (Req_dec_T x y); [reflexivity | contradiction].
Qed.

Lemma Reqb_false (x y : R) : x <> y -> Reqb x y = false.
Proof.
  intros H. unfold Reqb.
  destruct (Req_dec_T x y); [contradiction | reflexivity].
Qed.

Lemma py_div_ok (a b : R) : b <> 0 -> py_div a b = Ok (a / b).
Proof. intros H. unfold py_div. rewrite (Reqb_false _ _ H). reflexivity. Qed.

(** Case analysis on the scrutinee of the first [match] in the goal. *)
Ltac case_match :=
  match goal with
  | |- context [match ?x with _ => _ end] => destruct x eqn:?
  end.

(** ** List assignment *)

Lemma set_nth_length {A : Type} (l : list A) (n : nat) (x : A) :
  length (set_nth l n x) = length l.
Proof.
  revert n. induction l as [| h t IH]; intros [| n]; simpl;
    try reflexivity. rewrite IH. reflexivity.
Qed.

Lemma set_nth_same {A : Type} (l : list A) (n : nat) (x : A) :
  (n < length l)%nat -> nth_error (set_nth l n x) n = Some x.
Proof.
  revert n. induction l as [| h t IH]; intros [| n] H; simpl in *;
    try lia; try reflexivity. apply IH. lia.
Qed.

Lemma set_nth_other {A : Type} (l : list A) (n m : nat) (x : A) :
  m <> n -> nth_error (set_nth l n x) m = nth_error l m.
Proof.
  revert n m. induction l as [| h t IH]; intros [| n] [| m] H; simpl;
    try reflexivity; try congruence. apply IH. congruence.
Qed.

Lemma py_setitem_in_range {A : Type} (l : list A) (i : Z) (x : A) :
  (0 <= i < Z.of_nat (length l))%Z ->
  py_setitem l i x = Ok (set_nth l (Z.to_nat i) x).
Proof.
  intros [H0 H1]. unfold py_setitem.
  apply Z.leb_le in H0. apply Z.ltb_lt in H1. rewrite H0, H1. reflexivity.
Qed.

Lemma py_setitem_out_of_range {A : Type} (l : list A) (i : Z) (x : A) :
  (i < - Z.of_nat (length l) \/ Z.of_nat (length l) <= i)%Z ->
  py_setitem l i x = Raise IndexError.
Proof.
  intros H. unfold py_setitem.
  destruct (Z.leb_spec 0 i), (Z.ltb_spec i (Z.of_nat (length l))),
    (Z.leb_spec (- Z.of_nat (length l)) i), (Z.ltb_spec i 0);
    simpl; try reflexivity; lia.
Qed.

(** An assignment at an index from 0 changes that entry and no other. *)
Lemma py_setitem_one_entry {A : Type} (l l' : list A) (i : Z) (x : A) :
  (0 <= i)%Z ->
  py_setitem l i x = Ok l' ->
  length l' = length l
  /\ nth_error l' (Z.to_nat i) = Some x
  /\ forall j, j <> Z.to_nat i -> nth_error l' j = nth_error l j.
Proof.
  intros H0 H. unfold py_setitem in H.
  destruct (Z.leb_spec 0 i); [| lia].
  destruct (Z.ltb_spec i (Z.of_nat (length l))); simpl in H.
  - inversion H; subst. split; [apply set_nth_length |]. split.
    + apply set_nth_same. lia.
    + intros j Hj. apply set_nth_other. exact Hj.
  - destruct (Z.ltb_spec i 0); [lia |].
    rewrite andb_false_r in H. discriminate.
Qed.

(** ** The monad's frame rules *)

Lemma bind_ok {S A B : Type} (m : ST S A) (k : A -> ST S B) s b s2 :
  bind m k s = (Ok b, s2) ->
  exists a s1, m s = (Ok a, s1) /\ k a s1 = (Ok b, s2).
Proof.
  unfold bind. destruct (m s) as [[a | e] s1]; intros H.
  - exists a, s1. split; [reflexivity | exact H].
  - discriminate.
Qed.

Section FrameRules.

Context {S X : Type} (f : S -> X).

Lemma preserves_ret {A : Type} (a : A) : preserves f (ret a).
Proof. intros s. reflexivity. Qed.

Lemma preserves_lift {A : Type} (r : result A) : preserves f (lift r).
Proof. intros s. reflexivity. Qed.

Lemma preserves_bind {A B : Type} (m : ST S A) (k : A -> ST S B) :
  preserves f m -> (forall a, preserves f (k a)) -> preserves f (bind m k).
Proof.
  intros Hm Hk s. unfold bind. specialize (Hm s).
  destruct (m s) as [[a | e] s']; simpl in Hm.
  - rewrite Hk. exact Hm.
  - exact Hm.
Qed.

Lemma preserves_for_range (n : nat) (body : ST S unit) :
  preserves f body -> preserves f (for_range n body).
Proof.
  intros Hb. induction n as [| n IH]; simpl.
  - apply preserves_ret.
  - apply preserves_bind; [exact Hb | intros _; exact IH].
Qed.

End FrameRules.

Section Properties.

Variable V : Type.
Variable T : Type.
Context {schedule : TempParams T}.

Implicit Types (st : store V T) (ps : problem_store V).

(** ** [annealing_function] *)

Lemma annealing_function_zero st old new :
  get_current_temp (_temp_params (self st)) = Ok 0 ->
  annealing_function old new st = (Ok 0, emit CallGetTemp st).
Proof.
  intros Ht. unfold annealing_function, bind, temp_get_current_temp.
  rewrite Ht. rewrite (Reqb_true 0 0 eq_refl). reflexivity.
Qed.

Lemma annealing_function_nonzero st old new t :
  get_current_temp (_temp_params (self st)) = Ok t -> t <> 0 ->
  annealing_function old new st
  = (Ok (/ exp ((new - old) / t)), emit CallGetTemp (emit CallGetTemp st)).
Proof.
  intros Ht Hz. unfold annealing_function, bind, temp_get_current_temp.
  rewrite Ht. rewrite (Reqb_false _ _ Hz). cbn. rewrite Ht.
  unfold lift. rewrite (py_div_ok _ _ Hz).
  assert (He : exp ((new - old) / t) <> 0)
    by (apply Rgt_not_eq, exp_pos).
  rewrite (py_div_ok _ _ He). unfold Rdiv. rewrite Rmult_1_l. reflexivity.
Qed.

Lemma annealing_function_raise st old new e :
  get_current_temp (_temp_params (self st)) = Raise e ->
  annealing_function old new st = (Raise e, emit CallGetTemp st).
Proof.
  intros Ht. unfold annealing_function, bind, temp_get_current_temp.
  rewrite Ht. reflexivity.
Qed.

(** Whatever [annealing_function] does, it only reads the schedule. *)
Lemma annealing_function_frame st old new :
  exists r l,
    annealing_function old new st = (r, with_log st (l ++ log st))
    /\ Forall (fun e => e = CallGetTemp) l.
Proof.
  destruct (get_current_temp (_temp_params (self st))) as [t | e] eqn:Ht.
  - destruct (Req_dec_T t 0) as [-> | Hz].
    + exists (Ok 0), [CallGetTemp].
      rewrite (annealing_function_zero _ _ _ Ht). split; [reflexivity|].
      repeat constructor.
    + exists (Ok (/ exp ((new - old) / t))), [CallGetTemp; CallGetTemp].
      rewrite (annealing_function_nonzero _ _ _ _ Ht Hz).
      split; [reflexivity|]. repeat constructor.
  - exists (Raise e), [CallGetTemp].
    rewrite (annealing_function_raise _ _ _ _ Ht). split; [reflexivity|].
    repeat constructor.
Qed.

(** C5: at temperature exactly 0 [annealing_function] returns exactly 0
    whatever the two objective values are; at a temperature [t <> 0] it
    returns the reciprocal of [exp ((new_value - old_value) / t)]; and
    for [t > 0] and equal objective values that is exactly 1. *)
Theorem annealing_function_value st old new t :
  get_current_temp (_temp_params (self st)) = Ok t ->
  (t = 0 -> fst (annealing_function old new st) = Ok 0)
  /\ (t <> 0 ->
      fst (annealing_function old new st) = Ok (/ exp ((new - old) / t)))
  /\ (0 < t -> new = old -> fst (annealing_function old new st) = Ok 1).
Proof.
  intros Ht. repeat split.
  - intros ->. rewrite (annealing_function_zero _ _ _ Ht). reflexivity.
  - intros Hz. rewrite (annealing_function_nonzero _ _ _ _ Ht Hz). reflexivity.
  - intros Hpos ->.
    assert (Hz : t <> 0) by lra.
    rewrite (annealing_function_nonzero _ _ _ _ Ht Hz). simpl.
    replace ((old - old) / t) with 0 by (field; exact Hz).
    rewrite exp_0, Rinv_1. reflexivity.
Qed.

(** [annealing_function] never divides by zero: when the schedule gives a
    temperature it returns a number. *)
Lemma annealing_function_no_fault st old new t :
  get_current_temp (_temp_params (self st)) = Ok t ->
  exists a, fst (annealing_function old new st) = Ok a /\ 0 <= a.
Proof.
  intros Ht. destruct (Req_dec_T t 0) as [-> | Hz].
  - exists 0. rewrite (annealing_function_zero _ _ _ Ht). split; [reflexivity | lra].
  - exists (/ exp ((new - old) / t)).
    rewrite (annealing_function_nonzero _ _ _ _ Ht Hz). split; [reflexivity |].
    left. apply Rinv_0_lt_compat, exp_pos.
Qed.

(** ** [should_change_solution] *)

Lemma should_change_solution_improving st old new :
  new < old -> should_change_solution old new st = (Ok true, st).
Proof.
  intros H. unfold should_change_solution. rewrite (Rltb_true _ _ H).
  reflexivity.
Qed.

Lemma should_change_solution_not_improving st old new :
  ~ new < old ->
  should_change_solution old new st
  = (let st1 := emit CallRand (with_rand_pos st (S (rand_pos st))) in
     match annealing_function old new st1 with
     | (Ok a, st2) => (Ok (Rleb (rand_stream st (rand_pos st)) a), st2)
     | (Raise e, st2) => (Raise e, st2)
     end).
Proof.
  intros H. unfold should_change_solution. rewrite (Rltb_false _ _ H).
  unfold bind, np_random_rand. cbv beta iota zeta.
  match goal with
  | |- context [annealing_function old new ?s] =>
      destruct (annealing_function old new s) as [[a | e] st2]
  end; reflexivity.
Qed.

(** C4: a strictly better candidate is accepted at once, the store (and
    with it the generator) untouched; otherwise exactly one draw is taken
    and the answer is [true] exactly when that draw is at most the value
    [annealing_function old_value new_value] returns. *)
Theorem should_change_solution_spec st old new :
  (new < old -> should_change_solution old new st = (Ok true, st))
  /\ (~ new < old ->
      forall a st2,
        annealing_function old new
          (emit CallRand (with_rand_pos st (S (rand_pos st)))) = (Ok a, st2) ->
        exists b,
          should_change_solution old new st = (Ok b, st2)
          /\ (b = true <-> rand_stream st (rand_pos st) <= a)
          /\ rand_pos st2 = S (rand_pos st)
          /\ count is_rand_call (log st2) = S (count is_rand_call (log st))).
Proof.
  split.
  - apply should_change_solution_improving.
  - intros H a st2 Ha.
    exists (Rleb (rand_stream st (rand_pos st)) a).
    rewrite (should_change_solution_not_improving _ _ _ H). cbn zeta.
    rewrite Ha. split; [reflexivity |]. split; [apply Rleb_true_iff |].
    destruct (annealing_function_frame
                (emit CallRand (with_rand_pos st (S (rand_pos st)))) old new)
      as (r & l & Hf & Hl).
    rewrite Hf in Ha. inversion Ha; subst. cbn. split; [reflexivity |].
    unfold count. rewrite filter_app, length_app. cbn.
    assert (Hnil : filter is_rand_call l = []).
    { clear -Hl. induction Hl as [| e l He _ IH]; [reflexivity |].
      subst e. exact IH. }
    rewrite Hnil. reflexivity.
Qed.

(** C3, as the code has it: at temperature exactly 0 and with a strictly
    worse candidate, [should_change_solution] returns without any fault;
    it answers [false] for every draw above 0 and [true] for the draw 0,
    since the test is [random_number <= 0]. *)
Theorem zero_temperature_worse_candidate st old new :
  get_current_temp (_temp_params (self st)) = Ok 0 ->
  old < new ->
  exists b st',
    should_change_solution old new st = (Ok b, st')
    /\ (0 < rand_stream st (rand_pos st) -> b = false)
    /\ (rand_stream st (rand_pos st) = 0 -> b = true).
Proof.
  intros Ht Hlt.
  assert (H : ~ new < old) by lra.
  rewrite (should_change_solution_not_improving _ _ _ H). cbn zeta.
  rewrite annealing_function_zero by exact Ht.
  eexists. eexists. split; [reflexivity |]. split.
  - intros Hd. apply Rleb_false_iff. exact Hd.
  - intros Hd. apply Rleb_true_iff. rewrite Hd. lra.
Qed.

(** C10: on a strict improvement [should_change_solution] answers [true]
    and leaves the trace and the schedule as they were: the temperature is
    not read, whatever reading it would have given, a fault included. *)
Theorem strict_improvement_skips_schedule st old new :
  new < old ->
  fst (should_change_solution old new st) = Ok true
  /\ log (snd (should_change_solution old new st)) = log st
  /\ count is_temp_read (log (snd (should_change_solution old new st)))
     = count is_temp_read (log st)
  /\ _temp_params (self (snd (should_change_solution old new st)))
     = _temp_params (self st).
Proof.
  intros H. rewrite (should_change_solution_improving _ _ _ H).
  repeat split; reflexivity.
Qed.

(** ** [OptimizationProblem] *)

Lemma find_neighbour_solution_run ps :
  find_neighbour_solution ps
  = (let x := get_solution_value (_current_solution (this ps)) in
     let ps1 := {| this := this ps; calls := CallUpdater x :: calls ps |} in
     match _solution_updater (this ps) x with
     | Ok v' =>
         let ps2 := {| this := this ps;
                       calls := CallObjective v' :: CallUpdater x :: calls ps |} in
         match _objective_function (this ps) v' with
         | Ok o => (Ok (MkOptimizationSolution v' o), ps2)
         | Raise e => (Raise e, ps2)
         end
     | Raise e => (Raise e, ps1)
     end).
Proof.
  unfold find_neighbour_solution, bind, attr, call_updater, call_objective, ret.
  cbn. case_match; [| reflexivity]. cbn. case_match; reflexivity.
Qed.

Lemma update_current_solution_run ps x :
  update_current_solution x ps
  = (match _objective_function (this ps) x with
     | Ok o =>
         (Ok tt,
          {| this := {| _objective_function := _objective_function (this ps);
                        _solution_updater := _solution_updater (this ps);
                        _current_solution := MkOptimizationSolution x o |};
             calls := CallObjective x :: calls ps |})
     | Raise e =>
         (Raise e, {| this := this ps; calls := CallObjective x :: calls ps |})
     end).
Proof.
  unfold update_current_solution, get_objective_function, bind, attr,
    call_objective, set_current_solution.
  cbv beta iota zeta. cbn. case_match; reflexivity.
Qed.

(** C7: [find_neighbour_solution] returns the solution made of the
    updater's result at the current value and the objective function at
    that result, and leaves the problem object as it was; so do the three
    getters.  [update_current_solution] is the one method that replaces the
    current solution. *)
Theorem find_neighbour_solution_spec ps :
  (forall v' o,
      _solution_updater (this ps)
        (get_solution_value (_current_solution (this ps))) = Ok v' ->
      _objective_function (this ps) v' = Ok o ->
      fst (find_neighbour_solution ps) = Ok (MkOptimizationSolution v' o))
  /\ this (snd (find_neighbour_solution ps)) = this ps
  /\ this (snd (get_current_solution ps)) = this ps
  /\ this (snd (get_objective_function ps)) = this ps
  /\ this (snd (get_current_objective_value ps)) = this ps
  /\ (forall x o,
         _objective_function (this ps) x = Ok o ->
         _current_solution (this (snd (update_current_solution x ps)))
         = MkOptimizationSolution x o).
Proof.
  repeat split.
  - intros v' o Hu Hf. rewrite find_neighbour_solution_run. cbv zeta.
    rewrite Hu, Hf. reflexivity.
  - rewrite find_neighbour_solution_run. cbn.
    case_match; [| reflexivity]. case_match; reflexivity.
  - intros x o Hf. rewrite update_current_solution_run, Hf. reflexivity.
Qed.

Lemma init_run (x : pyobj V) f u l p l' :
  OptimizationProblem_init x f u l = (Ok p, l') ->
  exists o,
    f x = Ok o
    /\ p = {| _objective_function := f; _solution_updater := u;
              _current_solution := MkOptimizationSolution x o |}
    /\ l' = CallObjective x :: l.
Proof.
  unfold OptimizationProblem_init. intros H.
  destruct (f x) as [o | e]; inversion H; subst.
  exists o. repeat split.
Qed.

(** C8: in every state a problem object goes through, right after
    construction and after every [update_current_solution], the stored
    objective value is the objective function at the stored value. *)
Theorem problem_state_consistent (p : OptimizationProblem V) :
  problem_state p -> consistent p.
Proof.
  intros H. induction H as [x f u l p l' Hinit | ps x ps' _ _ Hupd].
  - apply init_run in Hinit. destruct Hinit as (o & Hf & -> & _).
    unfold consistent. cbn. exact Hf.
  - rewrite update_current_solution_run in Hupd.
    destruct (_objective_function (this ps) x) as [o | e] eqn:Hf;
      inversion Hupd; subst.
    unfold consistent. cbn. exact Hf.
Qed.

(** A failed update leaves the problem, and so its consistency, alone. *)
Lemma update_current_solution_raise ps x e :
  fst (update_current_solution x ps) = Raise e ->
  this (snd (update_current_solution x ps)) = this ps.
Proof.
  rewrite update_current_solution_run.
  destruct (_objective_function (this ps) x); [discriminate | reflexivity].
Qed.

Lemma update_current_solution_consistent ps x :
  consistent (this ps) -> consistent (this (snd (update_current_solution x ps))).
Proof.
  intros Hc. rewrite update_current_solution_run.
  destruct (_objective_function (this ps) x) as [o | e] eqn:Hf; cbn.
  - unfold consistent. cbn. exact Hf.
  - exact Hc.
Qed.

(** C9: constructing a problem from [x] with objective function [f]
    calls [f] once, on [x], and the new problem's
    [get_current_objective_value] is exactly [f x]. *)
Theorem init_objective_value (x : pyobj V) f u l y :
  f x = Ok y ->
  exists p,
    OptimizationProblem_init x f u l = (Ok p, CallObjective x :: l)
    /\ (forall c,
           fst (get_current_objective_value {| this := p; calls := c |}) = Ok y)
    /\ count is_objective_call (snd (OptimizationProblem_init x f u l))
       = S (count is_objective_call l).
Proof.
  intros Hf. unfold OptimizationProblem_init. rewrite Hf.
  eexists. split; [reflexivity |]. split; reflexivity.
Qed.

(** ** Frames of the annealer's building blocks *)

Lemma on_problem_outside {A : Type} (m : P V A) :
  preserves (@outside_step V T) (on_problem m).
Proof. intros st. unfold on_problem. destruct (m _). reflexivity. Qed.

Lemma on_problem_problem {A : Type} (m : P V A) :
  preserves (@this V) m -> preserves (@problem_of V T) (on_problem m).
Proof.
  intros Hm st. unfold on_problem.
  specialize (Hm {| this := _problem (self st); calls := log st |}).
  destruct (m _) as [r ps]. exact Hm.
Qed.

Lemma on_problem_temp_updates {A : Type} (m : P V A) :
  preserves (fun ps => count is_temp_update (calls ps)) m ->
  preserves (@temp_updates V T) (on_problem m).
Proof.
  intros Hm st. unfold on_problem.
  specialize (Hm {| this := _problem (self st); calls := log st |}).
  destruct (m _) as [r ps]. exact Hm.
Qed.

Lemma get_current_solution_this : preserves (@this V) get_current_solution.
Proof. intros ps. reflexivity. Qed.

Lemma find_neighbour_solution_this : preserves (@this V) find_neighbour_solution.
Proof.
  intros ps. rewrite find_neighbour_solution_run. cbv zeta.
  case_match; [| reflexivity]. case_match; reflexivity.
Qed.

Lemma get_current_solution_updates :
  preserves (fun ps : problem_store V => count is_temp_update (calls ps))
    get_current_solution.
Proof. intros ps. reflexivity. Qed.

Lemma find_neighbour_solution_updates :
  preserves (fun ps : problem_store V => count is_temp_update (calls ps))
    find_neighbour_solution.
Proof.
  intros ps. rewrite find_neighbour_solution_run. cbv zeta.
  case_match; [| reflexivity]. case_match; reflexivity.
Qed.

Lemma update_current_solution_updates x :
  preserves (fun ps : problem_store V => count is_temp_update (calls ps))
    (update_current_solution x).
Proof.
  intros ps. rewrite update_current_solution_run. case_match; reflexivity.
Qed.

Lemma should_change_solution_run st old new :
  exists r l,
    should_change_solution old new st
    = (r, with_log (with_rand_pos st (rand_pos st + length (filter is_rand_call l)))
            (l ++ log st))
    /\ Forall (fun e => e = CallGetTemp \/ e = CallRand) l.
Proof.
  destruct (Rlt_dec new old) as [H | H].
  - exists (Ok true), []. rewrite (should_change_solution_improving _ _ _ H).
    split; [| constructor]. cbn. rewrite Nat.add_0_r.
    destruct st; reflexivity.
  - rewrite (should_change_solution_not_improving _ _ _ H). cbv zeta.
    destruct (annealing_function_frame
                (emit CallRand (with_rand_pos st (S (rand_pos st)))) old new)
      as (r & l & Hf & Hl).
    rewrite Hf.
    assert (Hnil : filter is_rand_call l = []).
    { clear -Hl. induction Hl as [| e l He _ IH]; [reflexivity |].
      subst e. exact IH. }
    assert (Hall : Forall (fun e : event V => e = CallGetTemp \/ e = CallRand)
                     (l ++ [CallRand])).
    { apply Forall_app. split.
      - eapply Forall_impl; [| exact Hl]. intros e He. left. exact He.
      - constructor; [right; reflexivity | constructor]. }
    assert (Hst : with_log (emit CallRand (with_rand_pos st (S (rand_pos st))))
                    (l ++ log (emit CallRand (with_rand_pos st (S (rand_pos st)))))
                  = with_log
                      (with_rand_pos st
                         (rand_pos st
                          + length (filter is_rand_call (l ++ [CallRand]))))
                      ((l ++ [CallRand]) ++ log st)).
    { rewrite filter_app, Hnil. cbn. rewrite <- app_assoc. cbn.
      unfold with_log, with_rand_pos. cbn. rewrite Nat.add_1_r. reflexivity. }
    rewrite Hst.
    destruct r as [a | e].
    + exists (Ok (Rleb (rand_stream st (rand_pos st)) a)), (l ++ [CallRand]).
      split; [reflexivity | exact Hall].
    + exists (Raise e), (l ++ [CallRand]). split; [reflexivity | exact Hall].
Qed.

Lemma should_change_solution_outside old new :
  preserves (@outside_step V T) (should_change_solution old new).
Proof.
  intros st. destruct (should_change_solution_run st old new) as (r & l & H & _).
  rewrite H. reflexivity.
Qed.

Lemma should_change_solution_problem old new :
  preserves (@problem_of V T) (should_change_solution old new).
Proof.
  intros st. destruct (should_change_solution_run st old new) as (r & l & H & _).
  rewrite H. reflexivity.
Qed.

Lemma should_change_solution_updates old new :
  preserves (@temp_updates V T) (should_change_solution old new).
Proof.
  intros st. destruct (should_change_solution_run st old new) as (r & l & H & Hl).
  rewrite H. unfold temp_updates, count. cbn. rewrite filter_app, length_app.
  assert (Hnil : filter is_temp_update l = []).
  { clear -Hl. induction Hl as [| e l He _ IH]; [reflexivity |].
    destruct He as [-> | ->]; exact IH. }
  rewrite Hnil. reflexivity.
Qed.

(** ** [run_annealing_step] *)

Ltac frame :=
  repeat first
    [ apply preserves_bind; [| intros ? ]
    | apply preserves_ret
    | apply preserves_lift
    | apply preserves_for_range
    | apply on_problem_outside
    | apply on_problem_problem
    | apply on_problem_temp_updates
    | apply get_current_solution_this
    | apply find_neighbour_solution_this
    | apply get_current_solution_updates
    | apply find_neighbour_solution_updates
    | apply update_current_solution_updates
    | apply should_change_solution_outside
    | apply should_change_solution_problem
    | apply should_change_solution_updates
    | match goal with |- preserves _ (if ?b then _ else _) => destruct b end ].

(** A step commits nothing: the problem object is as it was, whether the
    step returns or raises. *)
Lemma run_annealing_step_problem :
  preserves (@problem_of V T) run_annealing_step.
Proof. unfold run_annealing_step. frame. Qed.

Lemma run_annealing_step_outside :
  preserves (@outside_step V T) run_annealing_step.
Proof. unfold run_annealing_step. frame. Qed.

Lemma run_annealing_step_updates :
  preserves (@temp_updates V T) run_annealing_step.
Proof. unfold run_annealing_step. frame. Qed.

Lemma on_problem_run {A : Type} (m : P V A) st :
  on_problem m st
  = (fst (m {| this := _problem (self st); calls := log st |}),
     with_log
       (with_problem st
          (this (snd (m {| this := _problem (self st); calls := log st |}))))
       (calls (snd (m {| this := _problem (self st); calls := log st |})))).
Proof. unfold on_problem. destruct (m _). reflexivity. Qed.

(** When the current value is a plain candidate, the step cannot return:
    whatever the neighbour and objective functions do, it raises. *)
Lemma run_annealing_step_plain st v :
  get_solution_value (_current_solution (_problem (self st))) = Plain v ->
  is_ok (fst (run_annealing_step st)) = false.
Proof.
  intros Hv. unfold run_annealing_step.
  unfold bind at 1. rewrite on_problem_run. cbn. rewrite Hv.
  unfold bind at 1. rewrite on_problem_run.
  rewrite find_neighbour_solution_run. cbn. rewrite Hv.
  case_match; [| reflexivity]. case_match; reflexivity.
Qed.

(** With working neighbour and objective functions the fault is the
    missing accessor, raised after the neighbour was built. *)
Lemma run_annealing_step_plain_attribute_error st v v' o :
  get_solution_value (_current_solution (_problem (self st))) = Plain v ->
  _solution_updater (_problem (self st)) (Plain v) = Ok v' ->
  _objective_function (_problem (self st)) v' = Ok o ->
  exists st',
    run_annealing_step st = (Raise AttributeError, st')
    /\ log st' = CallObjective v' :: CallUpdater (Plain v) :: log st
    /\ rand_pos st' = rand_pos st.
Proof.
  intros Hv Hu Hf. unfold run_annealing_step.
  unfold bind at 1. rewrite on_problem_run. cbn. rewrite Hv.
  unfold bind at 1. rewrite on_problem_run.
  rewrite find_neighbour_solution_run. cbn. rewrite Hv, Hu, Hf. cbn.
  eexists. split; [reflexivity |]. split; reflexivity.
Qed.

(** When the current value is itself an [OptimizationSolution], the step
    compares that object's objective value with the neighbour's and
    returns the neighbour or the current value. *)
Lemma run_annealing_step_instance st s v' o :
  get_solution_value (_current_solution (_problem (self st))) = Instance s ->
  _solution_updater (_problem (self st)) (Instance s) = Ok v' ->
  _objective_function (_problem (self st)) v' = Ok o ->
  exists st1,
    log st1 = CallObjective v' :: CallUpdater (Instance s) :: log st
    /\ problem_of st1 = problem_of st
    /\ rand_pos st1 = rand_pos st
    /\ rand_stream st1 = rand_stream st
    /\ run_annealing_step st
       = match should_change_solution (get_objective_value s) o st1 with
         | (Ok true, st2) => (Ok (Instance (MkOptimizationSolution v' o)), st2)
         | (Ok false, st2) => (Ok (Instance s), st2)
         | (Raise e, st2) => (Raise e, st2)
         end.
Proof.
  intros Hv Hu Hf. unfold run_annealing_step.
  unfold bind at 1. rewrite on_problem_run. cbn. rewrite Hv.
  unfold bind at 1. rewrite on_problem_run.
  rewrite find_neighbour_solution_run. cbn. rewrite Hv, Hu, Hf. cbn.
  match goal with
  | |- context [bind _ _ ?s1] => exists s1
  end.
  repeat (split; [reflexivity |]).
  unfold bind. case_match. destruct r as [[|] | e]; reflexivity.
Qed.

(** ** [perform_annealing_iteration] *)

Lemma inner_steps_outside n :
  preserves (@outside_step V T)
    (for_range n
       (new_solution <- run_annealing_step ;;
        on_problem (update_current_solution new_solution))).
Proof. frame. Qed.

Lemma inner_steps_updates n :
  preserves (@temp_updates V T)
    (for_range n
       (new_solution <- run_annealing_step ;;
        on_problem (update_current_solution new_solution))).
Proof. frame. Qed.

(** Whenever an iteration returns, it has written the temperature read
    before the advance at index [iter_count] of [temps], the problem's
    current value at index [iter_count] of [solutions], and advanced the
    schedule once, after the two writes. *)
Lemma perform_annealing_iteration_returns i st st' :
  perform_annealing_iteration i st = (Ok tt, st') ->
  exists t,
    get_current_temp (_temp_params (self st)) = Ok t
    /\ py_setitem (temps st) i t = Ok (temps st')
    /\ py_setitem (solutions st) i
         (get_solution_value (_current_solution (problem_of st')))
       = Ok (solutions st')
    /\ update_temp (_temp_params (self st)) = Ok (_temp_params (self st'))
    /\ temp_updates st' = S (temp_updates st)
    /\ exists l,
         log st'
         = CallUpdateTemp :: StoreSolutions i :: StoreTemps i :: CallGetTemp :: l.
Proof.
  unfold perform_annealing_iteration. intros H.
  apply bind_ok in H. destruct H as (k & st0 & Hk & H).
  apply bind_ok in H. destruct H as ([] & st1 & Hloop & H).
  apply bind_ok in H. destruct H as (t & st2 & Ht & H).
  apply bind_ok in H. destruct H as ([] & st3 & Hts & H).
  apply bind_ok in H. destruct H as (s & st4 & Hs & H).
  apply bind_ok in H. destruct H as ([] & st5 & Hss & H).
  unfold call_iteration_function in Hk. inversion Hk as [[Hk1 Hk2]]. clear Hk.
  pose proof (inner_steps_outside (Z.to_nat k) st0) as Hout.
  pose proof (inner_steps_updates (Z.to_nat k) st0) as Hupd.
  rewrite Hloop in Hout, Hupd. cbn [snd] in Hout, Hupd.
  rewrite <- Hk2 in Hout, Hupd.
  unfold outside_step in Hout. cbn in Hout.
  inversion Hout as [[Htp Hif Htemps Hsols Hrs]]. clear Hout.
  unfold temp_updates, count in Hupd. cbn in Hupd.
  unfold temp_get_current_temp in Ht. inversion Ht as [[Ht1 Ht2]]. clear Ht.
  rewrite Htp in Ht1.
  unfold temps_setitem in Hts.
  destruct (py_setitem (temps st2) i t) as [ts | e] eqn:Hset1;
    inversion Hts as [Hts1]. clear Hts.
  rewrite on_problem_run in Hs. inversion Hs as [[Hs1 Hs2]]. clear Hs.
  unfold solutions_setitem in Hss.
  destruct (py_setitem (solutions st4) i s) as [ss | e] eqn:Hset2;
    inversion Hss as [Hss1]. clear Hss.
  unfold temp_update_temp in H.
  destruct (update_temp (_temp_params (self st5))) as [tp | e] eqn:Hadv;
    inversion H as [H1]. clear H.
  subst st' st5 st4 st3 st2. cbn in *.
  rewrite Htp in Hadv. rewrite Htemps in Hset1. rewrite Hsols in Hset2.
  exists t. unfold temp_updates, problem_of, count. cbn.
  rewrite ?Htp, ?Htemps, ?Hsols, Hs1, Hupd.
  repeat (split; [assumption || reflexivity |]).
  eexists. reflexivity.
Qed.

(** With no inner step the problem is not touched and the iteration still
    records and advances. *)
Lemma perform_annealing_iteration_no_steps i st k t tp ts ss :
  _iteration_function (self st) i = Ok k ->
  (k <= 0)%Z ->
  get_current_temp (_temp_params (self st)) = Ok t ->
  py_setitem (temps st) i t = Ok ts ->
  py_setitem (solutions st) i
    (get_solution_value (_current_solution (_problem (self st)))) = Ok ss ->
  update_temp (_temp_params (self st)) = Ok tp ->
  perform_annealing_iteration i st
  = (Ok tt,
     {| self := {| _temp_params := tp;
                   _iteration_function := _iteration_function (self st);
                   _problem := _problem (self st) |};
        temps := ts;
        solutions := ss;
        rand_stream := rand_stream st;
        rand_pos := rand_pos st;
        log := CallUpdateTemp :: StoreSolutions i :: StoreTemps i
               :: CallGetTemp :: CallIteration i :: log st |}).
Proof.
  intros Hk Hle Ht Hts Hss Htp. unfold perform_annealing_iteration.
  unfold bind at 1. unfold call_iteration_function. rewrite Hk.
  replace (Z.to_nat k) with O by lia.
  unfold bind, for_range, ret, temp_get_current_temp, temps_setitem,
    on_problem, solutions_setitem, temp_update_temp.
  cbn. rewrite Ht. cbn. rewrite Hts. cbn. rewrite Hss. cbn. rewrite Htp.
  reflexivity.
Qed.

(** On a problem whose current value is a plain candidate, an iteration
    that asks for at least one inner step raises in the first one: nothing
    is committed, nothing is recorded and the schedule is not advanced. *)
Lemma perform_annealing_iteration_plain i st k v :
  _iteration_function (self st) i = Ok k ->
  (0 < k)%Z ->
  get_solution_value (_current_solution (_problem (self st))) = Plain v ->
  exists e st',
    perform_annealing_iteration i st = (Raise e, st')
    /\ problem_of st' = problem_of st
    /\ outside_step st' = outside_step st
    /\ temp_updates st' = temp_updates st.
Proof.
  intros Hk Hpos Hv. unfold perform_annealing_iteration.
  unfold bind at 1. unfold call_iteration_function. rewrite Hk.
  destruct (Z.to_nat k) as [| n] eqn:Hn; [lia |]. cbn [for_range].
  set (st0 := emit (CallIteration i) st).
  pose proof (run_annealing_step_plain st0 v Hv) as Hraise.
  pose proof (run_annealing_step_problem st0) as Hp.
  pose proof (run_annealing_step_outside st0) as Ho.
  pose proof (run_annealing_step_updates st0) as Hu.
  unfold bind.
  destruct (run_annealing_step st0) as [[a | e] st1]; [discriminate |].
  cbn [fst snd is_ok] in *. exists e, st1.
  repeat split; assumption.
Qed.

End Properties.

(** * The concrete run *)

Import Demo.

Lemma problem5_constructed :
  OptimizationProblem_init (Plain 5%Z) square successor []
  = (Ok problem5, [CallObjective (Plain 5%Z)]).
Proof. reflexivity. Qed.

(** C1, on [OptimizationProblem(5, square, successor)]: the step reads
    the current value 5 through [get_current_solution], builds the
    neighbour 6 with objective 36, and raises [AttributeError] when it asks
    the integer 5 for [get_objective_value]; it returns neither the
    neighbour nor the current solution. *)
Theorem run_annealing_step_raises_on_plain_value :
  run_annealing_step (start 1 1 0)
  = (Raise AttributeError,
     with_log (start 1 1 0)
       [CallObjective (Plain 6%Z); CallUpdater (Plain 5%Z)]).
Proof. reflexivity. Qed.

(** C2, on the same problem with two inner steps asked for: the iteration
    raises in its first step; no step completes, no draw is taken and
    [update_current_solution] is never reached. *)
Theorem perform_annealing_iteration_raises_in_first_step :
  perform_annealing_iteration 0 (start 1 2 0)
  = (Raise AttributeError,
     with_log (start 1 2 0)
       [CallObjective (Plain 6%Z); CallUpdater (Plain 5%Z); CallIteration 0]).
Proof. reflexivity. Qed.

(** C6, on the same problem with one inner step asked for at index 3: the
    iteration raises before the two writes; [temps] and [solutions] are
    as they were and the schedule is not advanced. *)
Theorem perform_annealing_iteration_records_nothing :
  let out := perform_annealing_iteration 3 (start 1 1 0) in
  fst out = Raise AttributeError
  /\ temps (snd out) = temps (start 1 1 0)
  /\ solutions (snd out) = solutions (start 1 1 0)
  /\ _temp_params (self (snd out)) = 1
  /\ temp_updates (snd out) = 0%nat.
Proof. cbv zeta. repeat split. Qed.

(** With no inner step the same call records the temperature 1 and the
    current value 5 at index 3 and halves the temperature. *)
Lemma perform_annealing_iteration_zero_steps_example :
  perform_annealing_iteration 3 (start 1 0 0)
  = (Ok tt,
     {| self := {| _temp_params := 1 / 2;
                   _iteration_function := fun _ => Ok 0%Z;
                   _problem := problem5 |};
        temps := [0; 0; 0; 1];
        solutions := [Plain 0%Z; Plain 0%Z; Plain 0%Z; Plain 5%Z];
        rand_stream := fun _ => 0;
        rand_pos := 0;
        log := [CallUpdateTemp; StoreSolutions 3; StoreTemps 3; CallGetTemp;
                CallIteration 3] |}).
Proof. reflexivity. Qed.

(** C3 as stated fails: at temperature 0, with old value 5, new value 6
    and the draw 0, which lies in [0,1), the candidate is accepted. *)
Lemma zero_temperature_zero_draw_accepts :
  ~ (forall (st : store Z R) (old new : R),
        get_current_temp (_temp_params (self st)) = Ok 0 ->
        old < new ->
        0 <= rand_stream st (rand_pos st) < 1 ->
        fst (should_change_solution old new st) = Ok false).
Proof.
  intros H.
  assert (H5 : (5 < 6)%R) by lra.
  assert (Hd : 0 <= rand_stream (start 0 1 0) (rand_pos (start 0 1 0)) < 1)
    by (cbn; lra).
  specialize (H (start 0 1 0) 5 6 eq_refl H5 Hd).
  rewrite should_change_solution_not_improving in H by lra.
  cbv zeta in H. rewrite annealing_function_zero in H by reflexivity.
  cbn in H. inversion H as [Hb].
  apply Rleb_false_iff in Hb. lra.
Qed.

(** Had the step returned the neighbour as an [OptimizationSolution], the
    commit would hand that object, not its value, to the objective
    function. *)
Lemma commit_of_solution_object_raises :
  fst (on_problem
         (update_current_solution
            (Instance (MkOptimizationSolution (Plain 6%Z) 36)))
         (start 1 1 0))
  = Raise TypeError.
Proof. reflexivity. Qed.

(** ** The general statements at work on the concrete run *)

Lemma annealing_function_value_witness :
  fst (annealing_function 5 6 (start 0 1 0)) = Ok 0
  /\ fst (annealing_function 5 6 (start 1 1 0)) = Ok (/ exp ((6 - 5) / 1))
  /\ fst (annealing_function 5 5 (start 1 1 0)) = Ok 1.
Proof.
  split; [| split].
  - apply (annealing_function_value Z R (schedule := halving)
             (start 0 1 0) 5 6 0 eq_refl).
    reflexivity.
  - apply (annealing_function_value Z R (schedule := halving)
             (start 1 1 0) 5 6 1 eq_refl).
    lra.
  - apply (annealing_function_value Z R (schedule := halving)
             (start 1 1 0) 5 5 1 eq_refl).
    + lra.
    + reflexivity.
Defined.

Lemma should_change_solution_spec_witness :
  should_change_solution 5 4 (start 1 1 0) = (Ok true, start 1 1 0)
  /\ exists b,
       should_change_solution 5 6 (start 0 1 0)
       = (Ok b, emit CallGetTemp
                  (emit CallRand (with_rand_pos (start 0 1 0) 1)))
       /\ (b = true <-> 0 <= 0)
       /\ rand_pos (emit CallGetTemp
                      (emit CallRand (with_rand_pos (start 0 1 0) 1))) = 1%nat
       /\ count is_rand_call
            (log (emit CallGetTemp
                    (emit CallRand (with_rand_pos (start 0 1 0) 1)))) = 1%nat.
Proof.
  split.
  - apply (should_change_solution_spec Z R (schedule := halving) (start 1 1 0) 5 4). lra.
  - apply (should_change_solution_spec Z R (schedule := halving) (start 0 1 0) 5 6).
    + lra.
    + apply annealing_function_zero. reflexivity.
Defined.

Lemma zero_temperature_worse_candidate_witness :
  exists b st',
    should_change_solution 5 6 (start 0 1 (1 / 2)) = (Ok b, st')
    /\ (0 < 1 / 2 -> b = false)
    /\ (1 / 2 = 0 -> b = true).
Proof.
  apply (zero_temperature_worse_candidate Z R (schedule := halving)
           (start 0 1 (1 / 2)) 5 6).
  - reflexivity.
  - lra.
Defined.

Lemma strict_improvement_skips_schedule_witness :
  get_current_temp (_temp_params (self start_broken)) = Raise (CallerError 0)
  /\ fst (should_change_solution 5 4 start_broken) = Ok true
  /\ log (snd (should_change_solution 5 4 start_broken)) = []
  /\ count is_temp_read (log (snd (should_change_solution 5 4 start_broken)))
     = 0%nat
  /\ _temp_params (self (snd (should_change_solution 5 4 start_broken)))
     = Broken.
Proof.
  split; [reflexivity |].
  apply (strict_improvement_skips_schedule Z broken (schedule := broken_schedule)
           start_broken 5 4). lra.
Defined.

Lemma find_neighbour_solution_spec_witness :
  fst (find_neighbour_solution {| this := problem5; calls := [] |})
  = Ok (MkOptimizationSolution (Plain 6%Z) 36)
  /\ _current_solution
       (this (snd (update_current_solution (Plain 7%Z)
                     {| this := problem5; calls := [] |})))
     = MkOptimizationSolution (Plain 7%Z) 49.
Proof.
  destruct (find_neighbour_solution_spec Z {| this := problem5; calls := [] |})
    as (Hn & _ & _ & _ & _ & Hu).
  split.
  - apply Hn; reflexivity.
  - apply Hu. reflexivity.
Defined.

Lemma problem_state_consistent_witness :
  problem_state problem5 /\ consistent problem5.
Proof.
  assert (H : problem_state problem5)
    by exact (state_init Z _ _ _ _ _ _ problem5_constructed).
  split; [exact H | exact (problem_state_consistent Z problem5 H)].
Defined.

Lemma init_objective_value_witness :
  exists p,
    OptimizationProblem_init (Plain 5%Z) square successor []
    = (Ok p, [CallObjective (Plain 5%Z)])
    /\ (forall c,
           fst (get_current_objective_value {| this := p; calls := c |})
           = Ok 25)
    /\ count is_objective_call
         (snd (OptimizationProblem_init (Plain 5%Z) square successor []))
       = 1%nat.
Proof.
  apply (init_objective_value Z (Plain 5%Z) square successor [] 25).
  reflexivity.
Defined.

(** * Further properties of the two classes *)

Lemma inv_exp (x : R) : / exp x = exp (- x).
Proof. symmetry. apply exp_Ropp. Qed.

Lemma exp_le (x y : R) : x <= y -> exp x <= exp y.
Proof.
  intros [H | H].
  - left. apply exp_increasing. exact H.
  - right. rewrite H. reflexivity.
Qed.

Lemma exp_ge_1 (x : R) : 0 <= x -> 1 <= exp x.
Proof. intros H. rewrite <- exp_0. apply exp_le. exact H. Qed.


Lemma div_pos_nonneg (d t : R) : 0 <= d -> 0 < t -> 0 <= d / t.
Proof.
  intros Hd Ht. unfold Rdiv. apply Rmult_le_pos; [exact Hd |].
  left. apply Rinv_0_lt_compat. exact Ht.
Qed.


Section MoreProperties.

Variable V : Type.
Variable T : Type.
Context {schedule : TempParams T}.

Implicit Types (st : store V T) (ps : problem_store V).

(** ** The acceptance weight *)



(** X3: for a candidate that is no better, a lower positive temperature
    never gives a larger weight. *)
Theorem annealing_function_cooling st1 st2 old new t1 t2 :
  get_current_temp (_temp_params (self st1)) = Ok t1 ->
  get_current_temp (_temp_params (self st2)) = Ok t2 ->
  0 < t1 <= t2 ->
  old <= new ->
  exists a1 a2,
    fst (annealing_function old new st1) = Ok a1
    /\ fst (annealing_function old new st2) = Ok a2
    /\ a1 <= a2.
Proof.
  intros H1 H2 [Hpos Hle] Hd.
  assert (Hz1 : t1 <> 0) by lra. assert (Hz2 : t2 <> 0) by lra.
  exists (/ exp ((new - old) / t1)), (/ exp ((new - old) / t2)).
  rewrite (annealing_function_nonzero _ _ _ _ _ _ H1 Hz1).
  rewrite (annealing_function_nonzero _ _ _ _ _ _ H2 Hz2).
  split; [reflexivity |]. split; [reflexivity |].
  rewrite !inv_exp. apply exp_le. apply Ropp_le_contravar.
  unfold Rdiv. apply Rmult_le_compat_l; [lra |].
  apply Rinv_le_contravar; lra.
Qed.

(** X4: at a positive temperature a larger degradation never gives a
    larger weight. *)
Theorem annealing_function_degradation st old1 new1 old2 new2 t :
  get_current_temp (_temp_params (self st)) = Ok t ->
  0 < t ->
  new1 - old1 <= new2 - old2 ->
  exists a1 a2,
    fst (annealing_function old1 new1 st) = Ok a1
    /\ fst (annealing_function old2 new2 st) = Ok a2
    /\ a2 <= a1.
Proof.
  intros Ht Hpos Hd. assert (Hz : t <> 0) by lra.
  exists (/ exp ((new1 - old1) / t)), (/ exp ((new2 - old2) / t)).
  rewrite !(annealing_function_nonzero _ _ _ _ _ _ Ht Hz).
  split; [reflexivity |]. split; [reflexivity |].
  rewrite !inv_exp. apply exp_le. apply Ropp_le_contravar.
  unfold Rdiv. apply Rmult_le_compat_r; [| exact Hd].
  left. apply Rinv_0_lt_compat. exact Hpos.
Qed.

(** ** The acceptance decision *)

Lemma should_change_solution_at st old new t :
  get_current_temp (_temp_params (self st)) = Ok t ->
  t <> 0 ->
  ~ new < old ->
  should_change_solution old new st
  = (Ok (Rleb (rand_stream st (rand_pos st)) (/ exp ((new - old) / t))),
     emit CallGetTemp
       (emit CallGetTemp
          (emit CallRand (with_rand_pos st (S (rand_pos st)))))).
Proof.
  intros Ht Hz H.
  rewrite (should_change_solution_not_improving _ _ _ _ _ H). cbv zeta.
  rewrite (annealing_function_nonzero V T _ old new t); [reflexivity | | exact Hz].
  exact Ht.
Qed.

(** X5: at a positive temperature a tie is accepted for every draw up to
    1, at the cost of one draw. *)
Theorem tie_accepted st v t :
  get_current_temp (_temp_params (self st)) = Ok t ->
  0 < t ->
  rand_stream st (rand_pos st) <= 1 ->
  exists st',
    should_change_solution v v st = (Ok true, st')
    /\ rand_pos st' = S (rand_pos st).
Proof.
  intros Ht Hpos Hd. assert (Hz : t <> 0) by lra.
  rewrite (should_change_solution_at _ _ _ _ Ht Hz) by lra.
  assert (Hb : Rleb (rand_stream st (rand_pos st)) (/ exp ((v - v) / t))
               = true).
  { apply Rleb_true_iff.
    replace ((v - v) / t) with 0 by (field; exact Hz).
    rewrite exp_0, Rinv_1. exact Hd. }
  rewrite Hb. eexists. split; reflexivity.
Qed.

(** X6: a negative temperature is not rejected by the code; with it every
    candidate, however much worse, is accepted for every draw up to 1. *)
Theorem negative_temperature_accepts st old new t :
  get_current_temp (_temp_params (self st)) = Ok t ->
  t < 0 ->
  rand_stream st (rand_pos st) <= 1 ->
  fst (should_change_solution old new st) = Ok true.
Proof.
  intros Ht Hneg Hd. destruct (Rlt_dec new old) as [H | H].
  - rewrite (should_change_solution_improving _ _ _ _ _ H). reflexivity.
  - assert (Hz : t <> 0) by lra.
    rewrite (should_change_solution_at _ _ _ _ Ht Hz H). cbn [fst].
    f_equal. apply Rleb_true_iff. rewrite inv_exp.
    assert (H1 : 1 <= exp (- ((new - old) / t))).
    { apply exp_ge_1.
      replace (- ((new - old) / t)) with ((new - old) / - t)
        by (field; exact Hz).
      apply div_pos_nonneg; lra. }
    lra.
Qed.

(** X7: at a non-zero temperature a candidate that is no better is
    accepted exactly when the draw is at most
    [exp (- (new_value - old_value) / temp)]. *)
Theorem acceptance_threshold st old new t :
  get_current_temp (_temp_params (self st)) = Ok t ->
  t <> 0 ->
  ~ new < old ->
  exists b st',
    should_change_solution old new st = (Ok b, st')
    /\ (b = true
        <-> rand_stream st (rand_pos st) <= exp (- ((new - old) / t))).
Proof.
  intros Ht Hz H. rewrite (should_change_solution_at _ _ _ _ Ht Hz H).
  eexists. eexists. split; [reflexivity |].
  rewrite <- inv_exp. apply Rleb_true_iff.
Qed.

(** X8: when the candidate is no better and reading the temperature
    raises, [should_change_solution] raises the same exception, and the
    draw has already been taken. *)
Theorem schedule_fault_costs_a_draw st old new e :
  get_current_temp (_temp_params (self st)) = Raise e ->
  ~ new < old ->
  exists st',
    should_change_solution old new st = (Raise e, st')
    /\ rand_pos st' = S (rand_pos st)
    /\ log st' = CallGetTemp :: CallRand :: log st.
Proof.
  intros Ht H.
  rewrite (should_change_solution_not_improving _ _ _ _ _ H). cbv zeta.
  rewrite (annealing_function_raise V T _ old new e) by exact Ht.
  eexists. split; [reflexivity |]. split; reflexivity.
Qed.

(** X9: whatever it answers, [should_change_solution] leaves the problem,
    the schedule, the history lists and the stream of draws as they were
    and never advances the schedule; it takes no draw for a strictly
    better candidate and exactly one otherwise. *)
Theorem should_change_solution_frame st old new :
  problem_of (snd (should_change_solution old new st)) = problem_of st
  /\ outside_step (snd (should_change_solution old new st)) = outside_step st
  /\ temp_updates (snd (should_change_solution old new st)) = temp_updates st
  /\ rand_pos (snd (should_change_solution old new st))
     = (if Rltb new old then rand_pos st else S (rand_pos st)).
Proof.
  split; [apply should_change_solution_problem |].
  split; [apply should_change_solution_outside |].
  split; [apply should_change_solution_updates |].
  destruct (Rlt_dec new old) as [H | H].
  - rewrite (Rltb_true _ _ H).
    rewrite (should_change_solution_improving _ _ _ _ _ H). reflexivity.
  - rewrite (Rltb_false _ _ H).
    rewrite (should_change_solution_not_improving _ _ _ _ _ H). cbv zeta.
    destruct (annealing_function_frame V T
                (emit CallRand (with_rand_pos st (S (rand_pos st)))) old new)
      as (r & l & Hf & _).
    rewrite Hf. destruct r; reflexivity.
Qed.

(** ** The problem's mutator and its readers *)

(** X10: after [update_current_solution x] has returned, the getters give
    back [x], the objective function at [x] and the objective function
    the problem was built with; the neighbour function is the same. *)
Theorem update_then_read ps x o :
  _objective_function (this ps) x = Ok o ->
  exists ps',
    update_current_solution x ps = (Ok tt, ps')
    /\ fst (get_current_solution ps') = Ok x
    /\ fst (get_current_objective_value ps') = Ok o
    /\ fst (get_objective_function ps') = Ok (_objective_function (this ps))
    /\ _solution_updater (this ps') = _solution_updater (this ps).
Proof.
  intros Hf. rewrite update_current_solution_run, Hf.
  eexists. split; [reflexivity |]. repeat split.
Qed.

(** X11: when the objective function raises on the new value,
    [update_current_solution] raises the same exception and the problem
    keeps its previous current solution. *)
Theorem update_failure_keeps_solution ps x e :
  _objective_function (this ps) x = Raise e ->
  exists ps',
    update_current_solution x ps = (Raise e, ps')
    /\ this ps' = this ps
    /\ fst (get_current_solution ps') = fst (get_current_solution ps)
    /\ fst (get_current_objective_value ps')
       = fst (get_current_objective_value ps).
Proof.
  intros Hf. rewrite update_current_solution_run, Hf.
  eexists. split; [reflexivity |]. repeat split.
Qed.

(** X12: of two successful updates in a row only the second shows: the
    problem is the one the second update alone would have left. *)
Theorem last_update_wins ps x y ox oy :
  _objective_function (this ps) x = Ok ox ->
  _objective_function (this ps) y = Ok oy ->
  this (snd (update_current_solution y (snd (update_current_solution x ps))))
  = this (snd (update_current_solution y ps)).
Proof.
  intros Hx Hy. rewrite (update_current_solution_run _ ps x), Hx. cbn [snd].
  rewrite !update_current_solution_run. cbn. rewrite Hy. reflexivity.
Qed.

(** X13: committing again the value a consistent problem already holds
    changes nothing in the problem. *)
Theorem recommit_is_neutral ps :
  consistent (this ps) ->
  exists ps',
    update_current_solution
      (get_solution_value (_current_solution (this ps))) ps = (Ok tt, ps')
    /\ this ps' = this ps.
Proof.
  unfold consistent. intros Hc. rewrite update_current_solution_run, Hc.
  eexists. split; [reflexivity |]. cbn.
  destruct (this ps) as [f u [v o]]. reflexivity.
Qed.

(** X14: committing the value of the neighbour that
    [find_neighbour_solution] returned makes that neighbour, value and
    objective value, the current solution. *)
Theorem neighbour_value_commit ps s ps1 :
  find_neighbour_solution ps = (Ok s, ps1) ->
  exists ps2,
    update_current_solution (get_solution_value s) ps1 = (Ok tt, ps2)
    /\ _current_solution (this ps2) = s
    /\ consistent (this ps2).
Proof.
  rewrite find_neighbour_solution_run. cbv zeta. intros H.
  destruct (_solution_updater (this ps) _) as [v' | e]; [| discriminate].
  destruct (_objective_function (this ps) v') as [o | e] eqn:Hf;
    inversion H; subst. clear H.
  rewrite update_current_solution_run. cbn. rewrite Hf.
  eexists. split; [reflexivity |]. split; [reflexivity |].
  unfold consistent. cbn. exact Hf.
Qed.

(** ** Helper runs of the annealer's calls into the problem *)

Lemma store_eta st l :
  with_log
    (with_problem (with_log (with_problem st (_problem (self st))) (log st))
       (_problem (self st))) l
  = with_log st l.
Proof. destruct st as [[tp itf p] ts ss rs rp lg]. reflexivity. Qed.

Lemma on_problem_get_current_solution st :
  on_problem get_current_solution st
  = (Ok (get_solution_value (_current_solution (_problem (self st)))), st).
Proof. destruct st as [[tp itf p] ts ss rs rp lg]. reflexivity. Qed.

Lemma on_problem_update_ok st x o :
  _objective_function (_problem (self st)) x = Ok o ->
  on_problem (update_current_solution x) st
  = (Ok tt,
     with_log
       (with_problem st
          {| _objective_function := _objective_function (_problem (self st));
             _solution_updater := _solution_updater (_problem (self st));
             _current_solution := MkOptimizationSolution x o |})
       (CallObjective x :: log st)).
Proof.
  intros Hf. rewrite on_problem_run, update_current_solution_run. cbn.
  rewrite Hf. reflexivity.
Qed.

Lemma on_problem_update_raise st x e :
  _objective_function (_problem (self st)) x = Raise e ->
  on_problem (update_current_solution x) st
  = (Raise e, with_log st (CallObjective x :: log st)).
Proof.
  intros Hf. rewrite on_problem_run, update_current_solution_run. cbn.
  rewrite Hf. cbn. destruct st as [[tp itf p] ts ss rs rp lg]. reflexivity.
Qed.

Lemma run_annealing_step_start st :
  run_annealing_step st
  = (let cur := get_solution_value (_current_solution (_problem (self st))) in
     match _solution_updater (_problem (self st)) cur with
     | Raise e => (Raise e, with_log st (CallUpdater cur :: log st))
     | Ok v' =>
         let st1 := with_log st (CallObjective v' :: CallUpdater cur :: log st) in
         match _objective_function (_problem (self st)) v' with
         | Raise e => (Raise e, st1)
         | Ok o =>
             match call_get_objective_value cur with
             | Raise e => (Raise e, st1)
             | Ok old =>
                 match should_change_solution old o st1 with
                 | (Ok true, st2) =>
                     (Ok (Instance (MkOptimizationSolution v' o)), st2)
                 | (Ok false, st2) => (Ok cur, st2)
                 | (Raise e, st2) => (Raise e, st2)
                 end
             end
         end
     end).
Proof.
  unfold run_annealing_step.
  unfold bind at 1. rewrite on_problem_get_current_solution.
  unfold bind at 1. rewrite on_problem_run, find_neighbour_solution_run.
  cbn [this calls fst snd]. cbv zeta.
  destruct st as [[tp itf p] ts ss rs rp lg]. cbn.
  destruct (_solution_updater p _) as [v' | e]; [| reflexivity]. cbn.
  destruct (_objective_function p v') as [o | e]; [| reflexivity]. cbn.
  unfold bind at 1. unfold lift.
  destruct (call_get_objective_value _) as [old | e]; [| reflexivity].
  unfold bind, with_log, with_problem. cbn -[should_change_solution].
  match goal with
  | |- context [should_change_solution old o ?s] =>
      destruct (should_change_solution old o s) as [[[|] | e] st2]
  end; reflexivity.
Qed.

Lemma should_change_solution_draws st old new :
  rand_pos (snd (should_change_solution old new st))
  = (if Rltb new old then rand_pos st else S (rand_pos st)).
Proof.
  destruct (Rlt_dec new old) as [H | H].
  - rewrite (Rltb_true _ _ H).
    rewrite (should_change_solution_improving _ _ _ _ _ H). reflexivity.
  - rewrite (Rltb_false _ _ H).
    rewrite (should_change_solution_not_improving _ _ _ _ _ H). cbv zeta.
    destruct (annealing_function_frame V T
                (emit CallRand (with_rand_pos st (S (rand_pos st)))) old new)
      as (r & l & Hf & _).
    rewrite Hf. destruct r; reflexivity.
Qed.

Lemma run_annealing_step_draws : grows_by (@rand_pos V T) 1 run_annealing_step.
Proof.
  intros st. rewrite run_annealing_step_start. cbv zeta.
  destruct (_solution_updater _ _) as [v' | e]; [| cbn; lia].
  destruct (_objective_function _ v') as [o | e]; [| cbn; lia].
  destruct (call_get_objective_value _) as [old | e]; [| cbn; lia].
  match goal with
  | |- context [should_change_solution old o ?s] =>
      pose proof (should_change_solution_draws s old o) as Hd;
      destruct (should_change_solution old o s) as [[[|] | e] st2]
  end; cbn in *; destruct (Rltb o old); lia.
Qed.

(** ** One step *)

(** X15: whether it returns or raises, [run_annealing_step] leaves the
    problem, the schedule, the iteration function, the two history lists
    and the stream of draws as they were, does not advance the schedule,
    and takes at most one draw. *)
Theorem run_annealing_step_frame st :
  problem_of (snd (run_annealing_step st)) = problem_of st
  /\ outside_step (snd (run_annealing_step st)) = outside_step st
  /\ temp_updates (snd (run_annealing_step st)) = temp_updates st
  /\ (rand_pos st <= rand_pos (snd (run_annealing_step st))
      <= rand_pos st + 1)%nat.
Proof.
  split; [apply run_annealing_step_problem |].
  split; [apply run_annealing_step_outside |].
  split; [apply run_annealing_step_updates |].
  apply run_annealing_step_draws.
Qed.

(** X16: when the problem's current value is a plain candidate, an object
    without [get_objective_value], [run_annealing_step] never returns: it
    raises, whatever the neighbour and objective functions do. *)
Theorem run_annealing_step_needs_an_object st v :
  get_solution_value (_current_solution (_problem (self st))) = Plain v ->
  exists e st', run_annealing_step st = (Raise e, st').
Proof.
  intros Hv. pose proof (run_annealing_step_plain V T st v Hv) as H.
  destruct (run_annealing_step st) as [[r | e] st']; [discriminate |].
  exists e, st'. reflexivity.
Qed.

Lemma run_annealing_step_better st s v' o :
  get_solution_value (_current_solution (_problem (self st))) = Instance s ->
  _solution_updater (_problem (self st)) (Instance s) = Ok v' ->
  _objective_function (_problem (self st)) v' = Ok o ->
  o < get_objective_value s ->
  run_annealing_step st
  = (Ok (Instance (MkOptimizationSolution v' o)),
     with_log st (CallObjective v' :: CallUpdater (Instance s) :: log st)).
Proof.
  intros Hv Hu Hf Hlt. rewrite run_annealing_step_start. cbv zeta.
  rewrite Hv, Hu, Hf. cbn [call_get_objective_value].
  rewrite (should_change_solution_improving _ _ _ _ _ Hlt). reflexivity.
Qed.

(** X17: when the current value is a solution object and the neighbour's
    objective value is strictly below the one that object carries, the
    step returns the neighbour as a solution object, takes no draw and does
    not read the schedule. *)
Theorem run_annealing_step_improving st s v' o :
  get_solution_value (_current_solution (_problem (self st))) = Instance s ->
  _solution_updater (_problem (self st)) (Instance s) = Ok v' ->
  _objective_function (_problem (self st)) v' = Ok o ->
  o < get_objective_value s ->
  run_annealing_step st
  = (Ok (Instance (MkOptimizationSolution v' o)),
     with_log st (CallObjective v' :: CallUpdater (Instance s) :: log st)).
Proof. apply run_annealing_step_better. Qed.

(** X18: an exception of the neighbour function or of the objective
    function comes out of the step as it is; after a fault of the
    neighbour function the objective function is not called, and in
    neither case is a draw taken or the schedule read. *)
Theorem run_annealing_step_propagates st e :
  let cur := get_solution_value (_current_solution (_problem (self st))) in
  (_solution_updater (_problem (self st)) cur = Raise e ->
   run_annealing_step st
   = (Raise e, with_log st (CallUpdater cur :: log st)))
  /\ (forall v',
         _solution_updater (_problem (self st)) cur = Ok v' ->
         _objective_function (_problem (self st)) v' = Raise e ->
         run_annealing_step st
         = (Raise e,
            with_log st (CallObjective v' :: CallUpdater cur :: log st))).
Proof.
  cbv zeta. split.
  - intros Hu. rewrite run_annealing_step_start. cbv zeta.
    rewrite Hu. reflexivity.
  - intros v' Hu Hf. rewrite run_annealing_step_start. cbv zeta.
    rewrite Hu, Hf. reflexivity.
Qed.

(** ** Rules for counters and invariants *)

Lemma grows_by_preserves {St A : Type} (f : St -> nat) (m : ST St A) :
  preserves f m -> grows_by f 0 m.
Proof. intros H s. rewrite H. lia. Qed.

Lemma grows_by_bind {St A B : Type} (f : St -> nat) (n k : nat)
    (m : ST St A) (c : A -> ST St B) :
  grows_by f n m -> (forall a, grows_by f k (c a)) ->
  grows_by f (n + k) (bind m c).
Proof.
  intros Hm Hc s. unfold bind. specialize (Hm s).
  destruct (m s) as [[a | e] s1]; cbn [snd] in *.
  - specialize (Hc a s1). lia.
  - lia.
Qed.

Lemma grows_by_for_range {St : Type} (f : St -> nat) (c n : nat)
    (body : ST St unit) :
  grows_by f c body -> grows_by f (n * c) (for_range n body).
Proof.
  intros Hb. induction n as [| n IH]; cbn [for_range].
  - intros s. cbn. lia.
  - replace (S n * c)%nat with (c + n * c)%nat by lia.
    apply grows_by_bind; [exact Hb | intros _; exact IH].
Qed.

Lemma maintains_preserves {St X A : Type} (f : St -> X) (I : X -> Prop)
    (m : ST St A) :
  preserves f m -> maintains (fun s => I (f s)) m.
Proof. intros H s Hs. rewrite H. exact Hs. Qed.

Lemma maintains_bind {St A B : Type} (I : St -> Prop)
    (m : ST St A) (c : A -> ST St B) :
  maintains I m -> (forall a, maintains I (c a)) -> maintains I (bind m c).
Proof.
  intros Hm Hc s Hs. unfold bind. specialize (Hm s Hs).
  destruct (m s) as [[a | e] s1]; cbn [snd] in *.
  - apply Hc. exact Hm.
  - exact Hm.
Qed.

Lemma maintains_for_range {St : Type} (I : St -> Prop) (n : nat)
    (body : ST St unit) :
  maintains I body -> maintains I (for_range n body).
Proof.
  intros Hb. induction n as [| n IH]; cbn [for_range].
  - intros s Hs. exact Hs.
  - apply maintains_bind; [exact Hb | intros _; exact IH].
Qed.

(** ** One iteration, piece by piece *)

Lemma perform_annealing_iteration_split i :
  perform_annealing_iteration (V := V) (T := T) i
  = (k <- call_iteration_function i ;;
     for_range (Z.to_nat k) inner_step ;;;
     record_and_advance i).
Proof. reflexivity. Qed.

Lemma record_and_advance_run i st :
  record_and_advance i st
  = match get_current_temp (_temp_params (self st)) with
    | Raise e => (Raise e, emit CallGetTemp st)
    | Ok t =>
        match py_setitem (temps st) i t with
        | Raise e => (Raise e, emit CallGetTemp st)
        | Ok ts =>
            let st2 :=
              emit (StoreTemps i) (with_temps (emit CallGetTemp st) ts) in
            match py_setitem (solutions st) i
                    (get_solution_value
                       (_current_solution (_problem (self st)))) with
            | Raise e => (Raise e, st2)
            | Ok ss =>
                let st3 := emit (StoreSolutions i) (with_solutions st2 ss) in
                match update_temp (_temp_params (self st)) with
                | Ok tp =>
                    (Ok tt, emit CallUpdateTemp (with_temp_params st3 tp))
                | Raise e => (Raise e, emit CallUpdateTemp st3)
                end
            end
        end
    end.
Proof.
  destruct st as [[tp itf p] ts ss rs rp lg].
  unfold record_and_advance, bind, temp_get_current_temp, temps_setitem,
    on_problem, solutions_setitem, temp_update_temp.
  cbn.
  destruct (get_current_temp tp) as [t | e]; [| reflexivity]. cbn.
  destruct (py_setitem ts i t) as [ts' | e]; [| reflexivity]. cbn.
  destruct (py_setitem ss i _) as [ss' | e]; [| reflexivity]. cbn.
  destruct (update_temp tp) as [tp' | e]; reflexivity.
Qed.

Lemma py_setitem_length {A : Type} (l l' : list A) (i : Z) (x : A) :
  py_setitem l i x = Ok l' -> length l' = length l.
Proof.
  unfold py_setitem. intros H.
  destruct ((0 <=? i)%Z && (i <? Z.of_nat (length l))%Z).
  - inversion H. apply set_nth_length.
  - destruct ((- Z.of_nat (length l) <=? i)%Z && (i <? 0)%Z).
    + inversion H. apply set_nth_length.
    + discriminate.
Qed.

Lemma inner_step_outside : preserves (@outside_step V T) inner_step.
Proof.
  unfold inner_step. apply preserves_bind.
  - apply run_annealing_step_outside.
  - intros x. apply on_problem_outside.
Qed.

Lemma inner_step_updates : preserves (@temp_updates V T) inner_step.
Proof.
  unfold inner_step. apply preserves_bind.
  - apply run_annealing_step_updates.
  - intros x. apply on_problem_temp_updates, update_current_solution_updates.
Qed.

Lemma on_problem_rand_pos {A : Type} (m : P V A) :
  preserves (@rand_pos V T) (on_problem m).
Proof. intros st. unfold on_problem. destruct (m _). reflexivity. Qed.

Lemma inner_step_draws : grows_by (@rand_pos V T) 1 inner_step.
Proof.
  unfold inner_step. change 1%nat with (1 + 0)%nat. apply grows_by_bind.
  - apply run_annealing_step_draws.
  - intros x. apply grows_by_preserves, on_problem_rand_pos.
Qed.

Lemma on_problem_update_callables x :
  preserves (@callables V T) (on_problem (update_current_solution x)).
Proof.
  intros st. rewrite on_problem_run, update_current_solution_run.
  cbn [this calls]. destruct (_objective_function _ x); reflexivity.
Qed.

Lemma inner_step_callables : preserves (@callables V T) inner_step.
Proof.
  unfold inner_step. apply preserves_bind.
  - intros st. unfold callables.
    pose proof (run_annealing_step_problem V T st) as Hp.
    pose proof (run_annealing_step_outside V T st) as Ho.
    unfold problem_of in Hp. unfold outside_step in Ho.
    inversion Ho as [[Htp Hi Ht Hs Hr]]. rewrite Hp, Hi. reflexivity.
  - intros x. apply on_problem_update_callables.
Qed.

Lemma inner_step_consistent :
  maintains (fun st : store V T => consistent (problem_of st)) inner_step.
Proof.
  unfold inner_step. apply maintains_bind.
  - apply (maintains_preserves (@problem_of V T) (@consistent V)).
    apply run_annealing_step_problem.
  - intros x st Hc. rewrite on_problem_run. unfold problem_of. cbn.
    apply (update_current_solution_consistent V
             {| this := _problem (self st); calls := log st |} x).
    exact Hc.
Qed.

Ltac record_cases :=
  intros st; rewrite record_and_advance_run;
  repeat match goal with
         | |- context [match ?x with Ok _ => _ | Raise _ => _ end] =>
             destruct x eqn:?
         end; cbv zeta; try reflexivity.

Lemma record_and_advance_problem i :
  preserves (@problem_of V T) (record_and_advance i).
Proof. record_cases. Qed.

Lemma record_and_advance_rand_pos i :
  preserves (@rand_pos V T) (record_and_advance i).
Proof. record_cases. Qed.

Lemma record_and_advance_callables i :
  preserves (@callables V T) (record_and_advance i).
Proof. record_cases. Qed.

Lemma record_and_advance_sizes i :
  preserves (@buffer_sizes V T) (record_and_advance i).
Proof.
  record_cases; unfold buffer_sizes; cbn;
    repeat match goal with
           | H : py_setitem _ _ _ = Ok _ |- _ =>
               apply py_setitem_length in H; rewrite H; clear H
           end; reflexivity.
Qed.

(** ** One iteration *)

(** X19: whenever [perform_annealing_iteration] returns for an index from
    0, the entry at that index of [temps] is the temperature the schedule
    had before the call, the entry of [solutions] is the problem's
    current value, every other entry of both lists is as before, and the
    schedule was advanced once, after the two writes. *)
Theorem iteration_postcondition i st st' :
  perform_annealing_iteration i st = (Ok tt, st') ->
  (0 <= i)%Z ->
  exists t,
    get_current_temp (_temp_params (self st)) = Ok t
    /\ nth_error (temps st') (Z.to_nat i) = Some t
    /\ nth_error (solutions st') (Z.to_nat i)
       = Some (get_solution_value (_current_solution (problem_of st')))
    /\ (forall j, j <> Z.to_nat i ->
                  nth_error (temps st') j = nth_error (temps st) j
                  /\ nth_error (solutions st') j = nth_error (solutions st) j)
    /\ update_temp (_temp_params (self st)) = Ok (_temp_params (self st'))
    /\ exists l,
         log st'
         = CallUpdateTemp :: StoreSolutions i :: StoreTemps i
           :: CallGetTemp :: l
         /\ count is_temp_update l = count is_temp_update (log st).
Proof.
  intros H Hi.
  destruct (perform_annealing_iteration_returns V T i st st' H)
    as (t & Ht & Hts & Hss & Hadv & Hupd & l & Hl).
  destruct (py_setitem_one_entry _ _ _ _ Hi Hts) as (_ & Ht1 & Ht2).
  destruct (py_setitem_one_entry _ _ _ _ Hi Hss) as (_ & Hs1 & Hs2).
  exists t. repeat (split; [assumption |]).
  split; [intros j Hj; split; [apply Ht2 | apply Hs2]; exact Hj |].
  split; [assumption |].
  exists l. split; [exact Hl |].
  unfold temp_updates in Hupd. rewrite Hl in Hupd. unfold count in *.
  cbn in Hupd. lia.
Qed.

(** X20: a step count of zero or below runs no step: the problem is not
    touched and no draw is taken, yet the temperature and the current
    value are recorded and the schedule is advanced. *)
Theorem iteration_without_steps i st k t tp ts ss :
  _iteration_function (self st) i = Ok k ->
  (k <= 0)%Z ->
  get_current_temp (_temp_params (self st)) = Ok t ->
  py_setitem (temps st) i t = Ok ts ->
  py_setitem (solutions st) i
    (get_solution_value (_current_solution (_problem (self st)))) = Ok ss ->
  update_temp (_temp_params (self st)) = Ok tp ->
  perform_annealing_iteration i st
  = (Ok tt,
     {| self := {| _temp_params := tp;
                   _iteration_function := _iteration_function (self st);
                   _problem := _problem (self st) |};
        temps := ts;
        solutions := ss;
        rand_stream := rand_stream st;
        rand_pos := rand_pos st;
        log := CallUpdateTemp :: StoreSolutions i :: StoreTemps i
               :: CallGetTemp :: CallIteration i :: log st |}).
Proof. apply perform_annealing_iteration_no_steps. Qed.

Lemma iteration_outcome i st :
  exists r st1,
    perform_annealing_iteration i st = (r, st1)
    /\ ((exists e, r = Raise e
                   /\ outside_step st1 = outside_step st
                   /\ temp_updates st1 = temp_updates st)
        \/ (exists st0,
               outside_step st0 = outside_step st
               /\ temp_updates st0 = temp_updates st
               /\ record_and_advance i st0 = (r, st1))).
Proof.
  rewrite perform_annealing_iteration_split. unfold bind at 1.
  unfold call_iteration_function.
  destruct (_iteration_function (self st) i) as [k | e].
  - pose proof (preserves_for_range (@outside_step V T) (Z.to_nat k)
                  inner_step inner_step_outside
                  (emit (CallIteration i) st)) as Ho.
    pose proof (preserves_for_range (@temp_updates V T) (Z.to_nat k)
                  inner_step inner_step_updates
                  (emit (CallIteration i) st)) as Hu.
    unfold bind.
    destruct (for_range (Z.to_nat k) inner_step (emit (CallIteration i) st))
      as [[[] | e] st0]; cbn [snd] in Ho, Hu.
    + destruct (record_and_advance i st0) as [r st1] eqn:Hr.
      exists r, st1. split; [reflexivity |]. right. exists st0.
      repeat split; assumption.
    + exists (Raise e), st0. split; [reflexivity |]. left. exists e.
      repeat split; assumption.
  - exists (Raise e), (emit (CallIteration i) st). split; [reflexivity |].
    left. exists e. repeat split.
Qed.

(** X21: when the index lies outside [temps] or outside [solutions], the
    iteration never returns; [solutions] is left as it was and the
    schedule is not advanced; when the index lies outside [temps],
    [temps] is left as it was too. *)
Theorem iteration_index_out_of_range i st :
  (i < - Z.of_nat (length (temps st)) \/ Z.of_nat (length (temps st)) <= i
   \/ i < - Z.of_nat (length (solutions st))
   \/ Z.of_nat (length (solutions st)) <= i)%Z ->
  exists e st',
    perform_annealing_iteration i st = (Raise e, st')
    /\ solutions st' = solutions st
    /\ temp_updates st' = temp_updates st
    /\ ((i < - Z.of_nat (length (temps st))
         \/ Z.of_nat (length (temps st)) <= i)%Z ->
        temps st' = temps st).
Proof.
  intros Hbad.
  destruct (iteration_outcome i st) as (r & st1 & Hrun & [H | H]).
  - destruct H as (e & -> & Ho & Hu). exists e, st1.
    unfold outside_step in Ho. inversion Ho as [[Htp Hi Ht Hs Hr]].
    repeat split; assumption.
  - destruct H as (st0 & Ho & Hu & Hr). rewrite Hrun, <- Hr. clear Hrun Hr.
    unfold outside_step in Ho. inversion Ho as [[Htp Hi Ht Hs Hr]].
    rewrite record_and_advance_run. rewrite Htp, Ht, Hs.
    destruct (get_current_temp (_temp_params (self st))) as [t | e].
    2:{ exists e. eexists. split; [reflexivity |].
        unfold temp_updates, count in *. cbn.
        repeat split; try intros _; assumption. }
    destruct (py_setitem (temps st) i t) as [ts | e] eqn:Hts.
    2:{ exists e. eexists. split; [reflexivity |].
        unfold temp_updates, count in *. cbn.
        repeat split; try intros _; assumption. }
    assert (Hin : ~ (i < - Z.of_nat (length (temps st))
                     \/ Z.of_nat (length (temps st)) <= i)%Z).
    { intros Hc. rewrite (py_setitem_out_of_range _ _ _ Hc) in Hts.
      discriminate. }
    assert (Hsb : (i < - Z.of_nat (length (solutions st))
                   \/ Z.of_nat (length (solutions st)) <= i)%Z) by lia.
    rewrite (py_setitem_out_of_range _ _ _ Hsb). cbv zeta.
    exists IndexError. eexists. split; [reflexivity |].
    unfold temp_updates, count in *. cbn.
    split; [exact Hs |]. split; [exact Hu |]. intros Hc. contradiction.
Qed.

(** X22: the two writes are not atomic: with no step to run, an index
    inside [temps] but outside [solutions] leaves [temps] written, then
    raises [IndexError]; [solutions] and the schedule are as they were. *)
Theorem iteration_partial_record i st k t ts :
  _iteration_function (self st) i = Ok k ->
  (k <= 0)%Z ->
  get_current_temp (_temp_params (self st)) = Ok t ->
  py_setitem (temps st) i t = Ok ts ->
  (i < - Z.of_nat (length (solutions st))
   \/ Z.of_nat (length (solutions st)) <= i)%Z ->
  exists st',
    perform_annealing_iteration i st = (Raise IndexError, st')
    /\ temps st' = ts
    /\ solutions st' = solutions st
    /\ _temp_params (self st') = _temp_params (self st)
    /\ temp_updates st' = temp_updates st.
Proof.
  intros Hk Hle Ht Hts Hbad. rewrite perform_annealing_iteration_split.
  unfold bind at 1. unfold call_iteration_function. rewrite Hk.
  replace (Z.to_nat k) with O by lia. cbn [for_range].
  unfold bind at 1. unfold ret. rewrite record_and_advance_run.
  cbn [self emit with_log temps solutions _temp_params _problem].
  rewrite Ht, Hts. rewrite (py_setitem_out_of_range _ _ _ Hbad). cbv zeta.
  eexists. split; [reflexivity |]. repeat split.
Qed.

(** X23: an iteration never changes the length of either history list,
    whether it returns or raises. *)
Theorem iteration_keeps_sizes i st :
  length (temps (snd (perform_annealing_iteration i st))) = length (temps st)
  /\ length (solutions (snd (perform_annealing_iteration i st)))
     = length (solutions st).
Proof.
  assert (H : buffer_sizes (snd (perform_annealing_iteration i st))
              = buffer_sizes st).
  { destruct (iteration_outcome i st) as (r & st1 & Hrun & [H | H]);
      rewrite Hrun; cbn [snd].
    - destruct H as (e & _ & Ho & _).
      unfold outside_step in Ho. inversion Ho as [[Htp Hi Ht Hs Hr]].
      unfold buffer_sizes. rewrite Ht, Hs. reflexivity.
    - destruct H as (st0 & Ho & _ & Hr).
      pose proof (record_and_advance_sizes i st0) as Hsz.
      rewrite Hr in Hsz. cbn [snd] in Hsz. rewrite Hsz.
      unfold outside_step in Ho. inversion Ho as [[Htp Hi Ht Hs Hrs]].
      unfold buffer_sizes. rewrite Ht, Hs. reflexivity. }
  unfold buffer_sizes in H. inversion H as [[H1 H2]]. split; reflexivity.
Qed.

(** X24: an iteration asked for [k] steps takes at most [k] draws (none
    for [k] below 1), whether it returns or raises. *)
Theorem iteration_draws i st k :
  _iteration_function (self st) i = Ok k ->
  (rand_pos st <= rand_pos (snd (perform_annealing_iteration i st))
   <= rand_pos st + Z.to_nat k)%nat.
Proof.
  intros Hk.
  assert (E : perform_annealing_iteration i st
              = (for_range (Z.to_nat k) inner_step ;;; record_and_advance i)
                  (emit (CallIteration i) st)).
  { rewrite perform_annealing_iteration_split.
    unfold bind at 1. unfold call_iteration_function. rewrite Hk.
    reflexivity. }
  rewrite E. clear E.
  assert (H : grows_by (@rand_pos V T) (Z.to_nat k * 1 + 0)
                (for_range (Z.to_nat k) inner_step ;;; record_and_advance i)).
  { apply grows_by_bind.
    - apply grows_by_for_range, inner_step_draws.
    - intros _. apply grows_by_preserves, record_and_advance_rand_pos. }
  specialize (H (emit (CallIteration i) st)).
  change (rand_pos (emit (CallIteration i) st)) with (rand_pos st) in H.
  lia.
Qed.

Lemma iteration_callables i :
  preserves (@callables V T) (perform_annealing_iteration i).
Proof.
  rewrite perform_annealing_iteration_split.
  apply preserves_bind; [intros st; reflexivity |].
  intros k. apply preserves_bind.
  - apply preserves_for_range, inner_step_callables.
  - intros _. apply record_and_advance_callables.
Qed.

(** X25: an iteration never replaces the objective function, the
    neighbour function or the iteration function, and a problem whose
    stored objective value matches its value before the call still has
    that property after it, whether the call returns or raises. *)
Theorem iteration_keeps_callables i st :
  callables (snd (perform_annealing_iteration i st)) = callables st
  /\ (consistent (problem_of st) ->
      consistent (problem_of (snd (perform_annealing_iteration i st)))).
Proof.
  split; [apply iteration_callables |].
  rewrite perform_annealing_iteration_split.
  - revert st.
    apply (maintains_bind (fun st : store V T => consistent (problem_of st))).
    + intros st Hc. exact Hc.
    + intros k. apply maintains_bind.
      * apply maintains_for_range, inner_step_consistent.
      * intros _.
        apply (maintains_preserves (@problem_of V T) (@consistent V)).
        apply record_and_advance_problem.
Qed.

(** X26: on a problem whose current value is a plain candidate an
    iteration asked for at least one step raises in the first one: the
    problem, the two lists and the schedule are as they were. *)
Theorem iteration_on_plain_value i st k v :
  _iteration_function (self st) i = Ok k ->
  (0 < k)%Z ->
  get_solution_value (_current_solution (_problem (self st))) = Plain v ->
  exists e st',
    perform_annealing_iteration i st = (Raise e, st')
    /\ problem_of st' = problem_of st
    /\ temps st' = temps st
    /\ solutions st' = solutions st
    /\ _temp_params (self st') = _temp_params (self st)
    /\ temp_updates st' = temp_updates st.
Proof.
  intros Hk Hpos Hv.
  destruct (perform_annealing_iteration_plain V T i st k v Hk Hpos Hv)
    as (e & st' & Hrun & Hp & Ho & Hu).
  exists e, st'. unfold outside_step in Ho.
  inversion Ho as [[Htp Hi Ht Hs Hr]]. repeat split; assumption.
Qed.

(** ** A step and its commit *)

(** X27: when the current value is a solution object and the neighbour is
    strictly better, the loop body commits the neighbour as a solution
    object: the problem's new current value is that object, not the value
    the neighbour function returned, and its objective value is the
    objective function applied to the object; when that application raises,
    the body raises and the problem is as it was. *)
Theorem accepted_step_commits_the_object st s v' o :
  get_solution_value (_current_solution (_problem (self st))) = Instance s ->
  _solution_updater (_problem (self st)) (Instance s) = Ok v' ->
  _objective_function (_problem (self st)) v' = Ok o ->
  o < get_objective_value s ->
  (forall o',
      _objective_function (_problem (self st))
        (Instance (MkOptimizationSolution v' o)) = Ok o' ->
      exists st',
        inner_step st = (Ok tt, st')
        /\ _current_solution (problem_of st')
           = MkOptimizationSolution
               (Instance (MkOptimizationSolution v' o)) o'
        /\ rand_pos st' = rand_pos st)
  /\ (forall e,
         _objective_function (_problem (self st))
           (Instance (MkOptimizationSolution v' o)) = Raise e ->
         exists st',
           inner_step st = (Raise e, st')
           /\ problem_of st' = problem_of st).
Proof.
  intros Hv Hu Hf Hlt. split.
  - intros o' Hf'. unfold inner_step, bind.
    rewrite (run_annealing_step_better _ _ _ _ Hv Hu Hf Hlt).
    rewrite (on_problem_update_ok _ _ o') by exact Hf'.
    eexists. split; [reflexivity |]. split; reflexivity.
  - intros e Hf'. unfold inner_step, bind.
    rewrite (run_annealing_step_better _ _ _ _ Hv Hu Hf Hlt).
    rewrite (on_problem_update_raise _ _ e) by exact Hf'.
    eexists. split; reflexivity.
Qed.


(** ** The annealer's getters *)

(** X29: the three getters change nothing; after an iteration that
    returned, on an annealer built from a schedule, an iteration function
    and a problem, [get_iteration_function] still gives that function,
    [get_temp_params] gives the schedule advanced once, and
    [get_optimization_problem] gives a problem with the same two functions
    whose current value is the entry just recorded in [solutions]. *)
Theorem getters_after_iteration i st st' tp itf p :
  self st = SimulatedAnnealing_init tp itf p ->
  perform_annealing_iteration i st = (Ok tt, st') ->
  (0 <= i)%Z ->
  snd (get_temp_params st') = st'
  /\ snd (get_iteration_function st') = st'
  /\ snd (get_optimization_problem st') = st'
  /\ fst (get_iteration_function st') = Ok itf
  /\ (exists tp',
         update_temp tp = Ok tp' /\ fst (get_temp_params st') = Ok tp')
  /\ exists p',
       fst (get_optimization_problem st') = Ok p'
       /\ _objective_function p' = _objective_function p
       /\ _solution_updater p' = _solution_updater p
       /\ nth_error (solutions st') (Z.to_nat i)
          = Some (get_solution_value (_current_solution p')).
Proof.
  intros Hself Hrun Hi.
  destruct (perform_annealing_iteration_returns V T i st st' Hrun)
    as (t & Ht & Hts & Hss & Hadv & _ & _).
  destruct (py_setitem_one_entry _ _ _ _ Hi Hss) as (_ & Hs1 & _).
  pose proof (iteration_callables i st) as Hcal.
  rewrite Hrun in Hcal. cbn [snd] in Hcal. unfold callables in Hcal.
  rewrite Hself in Hcal, Hadv. cbn in Hcal, Hadv.
  inversion Hcal as [[Hf Hu Hitf]].
  do 3 (split; [reflexivity |]).
  split; [unfold get_iteration_function; cbn; rewrite Hitf; reflexivity |].
  split.
  - exists (_temp_params (self st')). split; [exact Hadv | reflexivity].
  - exists (_problem (self st')). repeat split; assumption.
Qed.

End MoreProperties.

(** ** The further properties at work on concrete runs *)



Lemma annealing_function_cooling_witness :
  exists a1 a2,
    fst (annealing_function 5 6 (start 1 1 0)) = Ok a1
    /\ fst (annealing_function 5 6 (start 2 1 0)) = Ok a2
    /\ a1 <= a2.
Proof.
  apply (annealing_function_cooling Z R (schedule := halving)
           (start 1 1 0) (start 2 1 0) 5 6 1 2).
  - reflexivity.
  - reflexivity.
  - lra.
  - lra.
Defined.

Lemma annealing_function_degradation_witness :
  exists a1 a2,
    fst (annealing_function 5 6 (start 1 1 0)) = Ok a1
    /\ fst (annealing_function 5 8 (start 1 1 0)) = Ok a2
    /\ a2 <= a1.
Proof.
  apply (annealing_function_degradation Z R (schedule := halving)
           (start 1 1 0) 5 6 5 8 1).
  - reflexivity.
  - lra.
  - lra.
Defined.

Lemma tie_accepted_witness :
  exists st',
    should_change_solution 5 5 (start 1 1 (1 / 2)) = (Ok true, st')
    /\ rand_pos st' = 1%nat.
Proof.
  apply (tie_accepted Z R (schedule := halving) (start 1 1 (1 / 2)) 5 1).
  - reflexivity.
  - lra.
  - cbn. lra.
Defined.

Lemma negative_temperature_accepts_witness :
  fst (should_change_solution 5 9 (start (-1) 1 (1 / 2))) = Ok true.
Proof.
  apply (negative_temperature_accepts Z R (schedule := halving)
           (start (-1) 1 (1 / 2)) 5 9 (-1)).
  - reflexivity.
  - lra.
  - cbn. lra.
Defined.

Lemma acceptance_threshold_witness :
  exists b st',
    should_change_solution 5 6 (start 1 1 (1 / 2)) = (Ok b, st')
    /\ (b = true <-> 1 / 2 <= exp (- ((6 - 5) / 1))).
Proof.
  apply (acceptance_threshold Z R (schedule := halving)
           (start 1 1 (1 / 2)) 5 6 1).
  - reflexivity.
  - lra.
  - lra.
Defined.

Lemma schedule_fault_costs_a_draw_witness :
  exists st',
    should_change_solution 5 6 start_broken = (Raise (CallerError 0), st')
    /\ rand_pos st' = 1%nat
    /\ log st' = [CallGetTemp; CallRand].
Proof.
  apply (schedule_fault_costs_a_draw Z broken (schedule := broken_schedule)
           start_broken 5 6 (CallerError 0)).
  - reflexivity.
  - lra.
Defined.

Lemma update_then_read_witness :
  exists ps',
    update_current_solution (Plain 7%Z) {| this := problem5; calls := [] |}
    = (Ok tt, ps')
    /\ fst (get_current_solution ps') = Ok (Plain 7%Z)
    /\ fst (get_current_objective_value ps') = Ok 49
    /\ fst (get_objective_function ps') = Ok square
    /\ _solution_updater (this ps') = successor.
Proof.
  apply (update_then_read Z {| this := problem5; calls := [] |}
           (Plain 7%Z) 49).
  reflexivity.
Defined.

Lemma update_failure_keeps_solution_witness :
  exists ps',
    update_current_solution (Instance five)
      {| this := problem5; calls := [] |} = (Raise TypeError, ps')
    /\ this ps' = problem5
    /\ fst (get_current_solution ps') = Ok (Plain 5%Z)
    /\ fst (get_current_objective_value ps') = Ok 25.
Proof.
  apply (update_failure_keeps_solution Z {| this := problem5; calls := [] |}
           (Instance five) TypeError).
  reflexivity.
Defined.

Lemma last_update_wins_witness :
  this (snd (update_current_solution (Plain 2%Z)
               (snd (update_current_solution (Plain 1%Z)
                       {| this := problem5; calls := [] |}))))
  = this (snd (update_current_solution (Plain 2%Z)
                 {| this := problem5; calls := [] |})).
Proof.
  apply (last_update_wins Z {| this := problem5; calls := [] |}
           (Plain 1%Z) (Plain 2%Z) 1 4); reflexivity.
Defined.

Lemma recommit_is_neutral_witness :
  exists ps',
    update_current_solution (Plain 5%Z) {| this := problem5; calls := [] |}
    = (Ok tt, ps')
    /\ this ps' = problem5.
Proof.
  apply (recommit_is_neutral Z {| this := problem5; calls := [] |}).
  reflexivity.
Defined.

Lemma neighbour_value_commit_witness :
  exists ps2,
    update_current_solution (Plain 6%Z)
      {| this := problem5;
         calls := [CallObjective (Plain 6%Z); CallUpdater (Plain 5%Z)] |}
    = (Ok tt, ps2)
    /\ _current_solution (this ps2) = MkOptimizationSolution (Plain 6%Z) 36
    /\ consistent (this ps2).
Proof.
  apply (neighbour_value_commit Z {| this := problem5; calls := [] |}
           (MkOptimizationSolution (Plain 6%Z) 36)
           {| this := problem5;
              calls := [CallObjective (Plain 6%Z); CallUpdater (Plain 5%Z)] |}).
  reflexivity.
Defined.

Lemma run_annealing_step_needs_an_object_witness :
  exists e st', run_annealing_step (start 1 1 0) = (Raise e, st').
Proof.
  apply (run_annealing_step_needs_an_object Z R (schedule := halving)
           (start 1 1 0) 5%Z).
  reflexivity.
Defined.

Lemma run_annealing_step_improving_witness :
  run_annealing_step (start_on (problem_on_object carried (shifted (-1))) 1 1 0)
  = (Ok (Instance
           (MkOptimizationSolution
              (Instance (MkOptimizationSolution (Plain 5%Z) (25 + -1)))
              (25 + -1))),
     with_log (start_on (problem_on_object carried (shifted (-1))) 1 1 0)
       [CallObjective
          (Instance (MkOptimizationSolution (Plain 5%Z) (25 + -1)));
        CallUpdater (Instance five)]).
Proof.
  apply (run_annealing_step_improving Z R (schedule := halving)
           (start_on (problem_on_object carried (shifted (-1))) 1 1 0) five
           (Instance (MkOptimizationSolution (Plain 5%Z) (25 + -1)))
           (25 + -1)).
  - reflexivity.
  - reflexivity.
  - reflexivity.
  - cbn. lra.
Defined.

Lemma run_annealing_step_propagates_witness :
  run_annealing_step (start_on (problem_on_object square successor) 1 1 0)
  = (Raise TypeError,
     with_log (start_on (problem_on_object square successor) 1 1 0)
       [CallUpdater (Instance five)])
  /\ run_annealing_step (start_on (problem_on_object square (shifted 1)) 1 1 0)
     = (Raise TypeError,
        with_log (start_on (problem_on_object square (shifted 1)) 1 1 0)
          [CallObjective
             (Instance (MkOptimizationSolution (Plain 5%Z) (25 + 1)));
           CallUpdater (Instance five)]).
Proof.
  split.
  - apply (run_annealing_step_propagates Z R (schedule := halving)
             (start_on (problem_on_object square successor) 1 1 0) TypeError).
    reflexivity.
  - apply (run_annealing_step_propagates Z R (schedule := halving)
             (start_on (problem_on_object square (shifted 1)) 1 1 0)
             TypeError).
    + reflexivity.
    + reflexivity.
Defined.

Lemma iteration_postcondition_witness :
  exists t,
    get_current_temp (_temp_params (self (start 1 0 0))) = Ok t
    /\ nth_error (temps (snd (perform_annealing_iteration 3 (start 1 0 0)))) 3
       = Some t
    /\ nth_error
         (solutions (snd (perform_annealing_iteration 3 (start 1 0 0)))) 3
       = Some (Plain 5%Z).
Proof.
  assert (Hi : (0 <= 3)%Z) by lia.
  destruct (iteration_postcondition Z R (schedule := halving) 3 (start 1 0 0)
              _ perform_annealing_iteration_zero_steps_example Hi)
    as (t & Ht & Hn & Hs & _).
  exists t. split; [exact Ht |]. split; [exact Hn | exact Hs].
Defined.

Lemma iteration_without_steps_witness :
  perform_annealing_iteration (-1) (start 1 (-2) 0)
  = (Ok tt,
     {| self := {| _temp_params := 1 / 2;
                   _iteration_function := fun _ => Ok (-2)%Z;
                   _problem := problem5 |};
        temps := [0; 0; 0; 1];
        solutions := [Plain 0%Z; Plain 0%Z; Plain 0%Z; Plain 5%Z];
        rand_stream := fun _ => 0;
        rand_pos := 0;
        log := [CallUpdateTemp; StoreSolutions (-1); StoreTemps (-1);
                CallGetTemp; CallIteration (-1)] |}).
Proof.
  apply (iteration_without_steps Z R (schedule := halving) (-1)
           (start 1 (-2) 0) (-2) 1 (1 / 2)).
  - reflexivity.
  - lia.
  - reflexivity.
  - reflexivity.
  - reflexivity.
  - reflexivity.
Defined.

Lemma iteration_index_out_of_range_witness :
  exists e st',
    perform_annealing_iteration 4 (start 1 0 0) = (Raise e, st')
    /\ solutions st' = solutions (start 1 0 0)
    /\ temp_updates st' = temp_updates (start 1 0 0)
    /\ ((4 < - Z.of_nat (length (temps (start 1 0 0)))
         \/ Z.of_nat (length (temps (start 1 0 0))) <= 4)%Z ->
        temps st' = temps (start 1 0 0)).
Proof.
  apply (iteration_index_out_of_range Z R (schedule := halving) 4
           (start 1 0 0)).
  cbn. lia.
Defined.

Lemma iteration_partial_record_witness :
  exists st',
    perform_annealing_iteration 1 start_uneven = (Raise IndexError, st')
    /\ temps st' = [0; 1]
    /\ solutions st' = [Plain 0%Z]
    /\ _temp_params (self st') = 1
    /\ temp_updates st' = temp_updates start_uneven.
Proof.
  apply (iteration_partial_record Z R (schedule := halving) 1 start_uneven
           0 1 [0; 1]).
  - reflexivity.
  - lia.
  - reflexivity.
  - reflexivity.
  - cbn. lia.
Defined.

Lemma iteration_draws_witness :
  (rand_pos (start 1 2 0)
   <= rand_pos (snd (perform_annealing_iteration 0 (start 1 2 0)))
   <= rand_pos (start 1 2 0) + Z.to_nat 2)%nat.
Proof.
  apply (iteration_draws Z R (schedule := halving) 0 (start 1 2 0) 2).
  reflexivity.
Defined.

Lemma iteration_keeps_callables_witness :
  consistent
    (problem_of (snd (perform_annealing_iteration 0 (start 1 2 0)))).
Proof.
  apply (iteration_keeps_callables Z R (schedule := halving) 0 (start 1 2 0)).
  reflexivity.
Defined.

Lemma iteration_on_plain_value_witness :
  exists e st',
    perform_annealing_iteration 0 (start 1 2 0) = (Raise e, st')
    /\ problem_of st' = problem_of (start 1 2 0)
    /\ temps st' = temps (start 1 2 0)
    /\ solutions st' = solutions (start 1 2 0)
    /\ _temp_params (self st') = _temp_params (self (start 1 2 0))
    /\ temp_updates st' = temp_updates (start 1 2 0).
Proof.
  apply (iteration_on_plain_value Z R (schedule := halving) 0 (start 1 2 0)
           2 5%Z).
  - reflexivity.
  - lia.
  - reflexivity.
Defined.

Lemma accepted_step_commits_the_object_witness :
  exists st',
    inner_step (start_on (problem_on_object carried (shifted (-1))) 1 1 0)
    = (Ok tt, st')
    /\ _current_solution (problem_of st')
       = MkOptimizationSolution
           (Instance
              (MkOptimizationSolution
                 (Instance (MkOptimizationSolution (Plain 5%Z) (25 + -1)))
                 (25 + -1)))
           (25 + -1)
    /\ rand_pos st' = 0%nat.
Proof.
  apply (accepted_step_commits_the_object Z R (schedule := halving)
           (start_on (problem_on_object carried (shifted (-1))) 1 1 0) five
           (Instance (MkOptimizationSolution (Plain 5%Z) (25 + -1)))
           (25 + -1)).
  - reflexivity.
  - reflexivity.
  - reflexivity.
  - cbn. lra.
  - reflexivity.
Defined.


Lemma getters_after_iteration_witness :
  exists p',
    fst (get_optimization_problem
           (snd (perform_annealing_iteration 3 (start 1 0 0)))) = Ok p'
    /\ _objective_function p' = square
    /\ _solution_updater p' = successor
    /\ nth_error
         (solutions (snd (perform_annealing_iteration 3 (start 1 0 0)))) 3
       = Some (get_solution_value (_current_solution p')).
Proof.
  apply (getters_after_iteration Z R (schedule := halving) 3 (start 1 0 0)
           (snd (perform_annealing_iteration 3 (start 1 0 0)))
           1 (fun _ => Ok 0%Z) problem5).
  - reflexivity.
  - reflexivity.
  - lia.
Defined.
